(** * PAP heartbeat collector: liveness store, zombie detector, alert client

    A shallow embedding of [src/config.ts], [src/store.ts],
    [src/zombie-detector.ts] and [src/alert-client.ts].

    Conventions of the embedding.
    - A JavaScript [number] that holds a millisecond timestamp, a counter
      or an uptime is a [Z]; all of them stay far below 2^53, where the
      double arithmetic of the source is exact integer arithmetic.
    - A [Date] is the [Z] of its [getTime()]; an ISO string made from a
      [Date] is kept as that same [Z].
    - Every [Date.now()] / [new Date()] of the source is an explicit
      argument of the embedded function: the clock is an input.
    - A [Map<string, V>] is a [gmap string V]; the [Set<string>] of the
      detector is a [gset string].  The source iterates a [Map] in
      insertion order, a [gmap] is enumerated in an order of its own;
      the order only decides in which order the alerts of one scan go
      out, and nothing below depends on it.
    - The [Set] of callbacks of one agent is an object shared between the
      store and the cleanup closures, so it lives in a heap of sets and
      is named by a reference.
    - The outcome of each [fetch] is read from a network oracle.
    - An [async] method is embedded as the run in which no other task is
      served between its [await]s: [sendAlert], [processQueue] and
      [check] are functions from the state at the call to the state at
      the return, and one [check] returns before the next one starts.
      A run in which a report, a [sendAlert] or a second [check] is
      served while one of them waits for the station is not described
      by these functions.  The statements on one whole call of
      [sendAlert], [processQueue] or [check] are statements on a call
      that runs alone, and say so. *)

From stdpp Require Import gmap strings list fin_maps sorting.
From Stdlib Require Import ZArith Lia.

Local Open Scope Z_scope.

(** ** config.ts *)

Inductive HeartbeatMode : Type := EMERGENCY | IDLE | SLEEP.

#[global] Instance HeartbeatMode_eq_dec : EqDecision HeartbeatMode.
Proof. solve_decision. Defined.

(** [HEARTBEAT_INTERVALS], in milliseconds. *)
Definition HEARTBEAT_INTERVALS (m : HeartbeatMode) : Z :=
  match m with
  | EMERGENCY => 5000
  | IDLE => 30000
  | SLEEP => 900000
  end.

Definition ZOMBIE_GRACE_MULTIPLIER : Z := 2.

Record Config : Type := mkConfig {
  port : Z;
  stationAlertUrl : string;
  stationAlertKey : string;
  collectorApiKey : string;
  clusterId : string;
  clusterName : string;
  zombieCheckIntervalMs : Z;
  alertQueueMaxSize : Z;
  alertQueueTtlMs : Z
}.

(** ** store.ts *)

Record HeartbeatEntry : Type := mkEntry {
  agent_uuid : string;
  agent_name : string;
  mode : HeartbeatMode;
  uptime_seconds : Z;
  last_seen : Z;
  first_seen : Z;
  consecutive_heartbeats : Z;
  observation_mode : bool;
  previous_mode : option HeartbeatMode;
  previous_uptime : option Z
}.

Record AgentStatus : Type := mkStatus {
  st_agent_uuid : string;
  st_agent_name : string;
  st_mode : HeartbeatMode;
  st_uptime_seconds : Z;
  st_last_seen : Z;
  healthy : bool;
  st_observation_mode : bool;
  st_consecutive_heartbeats : Z
}.

(** A callback is a function object; only its identity matters to the
    store.  A [SetRef] is the address of one [Set] of callbacks. *)
Abbreviation Callback := nat (only parsing).
Abbreviation SetRef := nat (only parsing).

Record HeartbeatStore : Type := mkStore {
  agents : gmap string HeartbeatEntry;
  observationCallbacks : gmap string SetRef;
  sets : list (list Callback)
}.

Definition emptyStore : HeartbeatStore :=
  {| agents := ∅; observationCallbacks := ∅; sets := [] |}.

(** What [recordHeartbeat] hands back. *)
Record RecordResult : Type := mkResult {
  isNew : bool;
  restartDetected : bool
}.

(** The closure returned by [enableObservation]: it captures the agent
    id, the [Set] object it registered in, and the callback. *)
Record Cleanup : Type := mkCleanup {
  cl_agent : string;
  cl_set : SetRef;
  cl_callback : Callback
}.

(** [Set.prototype.add] and [Set.prototype.delete] on an insertion-ordered
    set of callbacks. *)
Definition set_add (cb : Callback) (s : list Callback) : list Callback :=
  if bool_decide (cb ∈ s) then s else s ++ [cb].

Definition set_delete (cb : Callback) (s : list Callback) : list Callback :=
  filter (λ x, x ≠ cb) s.

Definition deref (r : SetRef) (h : list (list Callback)) : list Callback :=
  default [] (h !! r).

(** [isHealthy(entry, now)] *)
Definition isHealthy (entry : HeartbeatEntry) (now : Z) : bool :=
  let interval := HEARTBEAT_INTERVALS (mode entry) in
  let deadline := interval * ZOMBIE_GRACE_MULTIPLIER in
  let elapsed := now - last_seen entry in
  elapsed <? deadline.

(** [notifyObservers]: the calls made, in registration order.  A callback
    that throws is caught and logged, so the store goes on either way. *)
Definition notifyObservers (agentUuid : string) (entry : HeartbeatEntry)
    (st : HeartbeatStore) : list (Callback * HeartbeatEntry) :=
  match observationCallbacks st !! agentUuid with
  | Some r => (λ cb, (cb, entry)) <$> deref r (sets st)
  | None => []
  end.

Definition set_agents (st : HeartbeatStore) (a : gmap string HeartbeatEntry)
    : HeartbeatStore :=
  {| agents := a; observationCallbacks := observationCallbacks st;
     sets := sets st |}.

(** [recordHeartbeat], with [now] the [new Date()] it reads. *)
Definition recordHeartbeat (now : Z) (agentUuid agentName : string)
    (mode0 : HeartbeatMode) (uptimeSeconds : Z) (st : HeartbeatStore)
    : HeartbeatStore * RecordResult * list (Callback * HeartbeatEntry) :=
  match agents st !! agentUuid with
  | Some existing =>
      let restart := uptime_seconds existing >? uptimeSeconds + 10 in
      let updated :=
        {| agent_uuid := agent_uuid existing;
           agent_name := agent_name existing;
           mode := mode0;
           uptime_seconds := uptimeSeconds;
           last_seen := now;
           first_seen := first_seen existing;
           consecutive_heartbeats := consecutive_heartbeats existing + 1;
           observation_mode := observation_mode existing;
           previous_mode := Some (mode existing);
           previous_uptime := Some (uptime_seconds existing) |} in
      (set_agents st (<[agentUuid := updated]> (agents st)),
       {| isNew := false; restartDetected := restart |},
       notifyObservers agentUuid updated st)
  | None =>
      let entry :=
        {| agent_uuid := agentUuid;
           agent_name := agentName;
           mode := mode0;
           uptime_seconds := uptimeSeconds;
           last_seen := now;
           first_seen := now;
           consecutive_heartbeats := 1;
           observation_mode := false;
           previous_mode := None;
           previous_uptime := None |} in
      (set_agents st (<[agentUuid := entry]> (agents st)),
       {| isNew := true; restartDetected := false |},
       notifyObservers agentUuid entry st)
  end.

(** [agents.values()] *)
Definition entries (st : HeartbeatStore) : list HeartbeatEntry :=
  (map_to_list (agents st)).*2.

(** [entryToStatus]; [now] is the [Date.now()] default of [isHealthy]. *)
Definition entryToStatus (now : Z) (entry : HeartbeatEntry) : AgentStatus :=
  {| st_agent_uuid := agent_uuid entry;
     st_agent_name := agent_name entry;
     st_mode := mode entry;
     st_uptime_seconds := uptime_seconds entry;
     st_last_seen := last_seen entry;
     healthy := isHealthy entry now;
     st_observation_mode := observation_mode entry;
     st_consecutive_heartbeats := consecutive_heartbeats entry |}.

Definition getAgent (now : Z) (agentUuid : string) (st : HeartbeatStore)
    : option AgentStatus :=
  entryToStatus now <$> agents st !! agentUuid.

(** [getAllAgents]: each entry is converted at its own clock reading,
    [clock uuid]. *)
Definition getAllAgents (clock : string → Z) (st : HeartbeatStore)
    : list AgentStatus :=
  (λ e, entryToStatus (clock (agent_uuid e)) e) <$> entries st.

(** [getUnhealthyAgents], with [now] its single [Date.now()]. *)
Definition getUnhealthyAgents (now : Z) (st : HeartbeatStore)
    : list HeartbeatEntry :=
  filter (λ e, isHealthy e now = false) (entries st).

Definition removeAgent (agentUuid : string) (st : HeartbeatStore)
    : bool * HeartbeatStore :=
  (bool_decide (is_Some (agents st !! agentUuid)),
   {| agents := delete agentUuid (agents st);
      observationCallbacks := delete agentUuid (observationCallbacks st);
      sets := sets st |}).

Definition mark_observed (b : bool) (e : HeartbeatEntry) : HeartbeatEntry :=
  {| agent_uuid := agent_uuid e;
     agent_name := agent_name e;
     mode := mode e;
     uptime_seconds := uptime_seconds e;
     last_seen := last_seen e;
     first_seen := first_seen e;
     consecutive_heartbeats := consecutive_heartbeats e;
     observation_mode := b;
     previous_mode := previous_mode e;
     previous_uptime := previous_uptime e |}.

(** [enableObservation]: find or allocate the agent's [Set], add the
    callback, flag the entry if there is one, return the closure. *)
Definition enableObservation (agentUuid : string) (callback : Callback)
    (st : HeartbeatStore) : Cleanup * HeartbeatStore :=
  let '(r, cbs, h) :=
    match observationCallbacks st !! agentUuid with
    | Some r => (r, observationCallbacks st, sets st)
    | None =>
        let r := length (sets st) in
        (r, <[agentUuid := r]> (observationCallbacks st), sets st ++ [[]])
    end in
  let h' := alter (set_add callback) r h in
  let ags :=
    match agents st !! agentUuid with
    | Some entry => <[agentUuid := mark_observed true entry]> (agents st)
    | None => agents st
    end in
  ({| cl_agent := agentUuid; cl_set := r; cl_callback := callback |},
   {| agents := ags; observationCallbacks := cbs; sets := h' |}).

(** Running the closure returned by [enableObservation]. *)
Definition runCleanup (c : Cleanup) (st : HeartbeatStore) : HeartbeatStore :=
  let h' := alter (set_delete (cl_callback c)) (cl_set c) (sets st) in
  if bool_decide (length (deref (cl_set c) h') = 0%nat) then
    {| agents :=
         match agents st !! cl_agent c with
         | Some entry => <[cl_agent c := mark_observed false entry]> (agents st)
         | None => agents st
         end;
       observationCallbacks := delete (cl_agent c) (observationCallbacks st);
       sets := h' |}
  else
    {| agents := agents st;
       observationCallbacks := observationCallbacks st;
       sets := h' |}.

(** ** alert-client.ts *)

Inductive AlertType : Type :=
  AGENT_DEATH | EMERGENCY_MODE | RESTART_DETECTED | MODE_CHANGE.

#[global] Instance AlertType_eq_dec : EqDecision AlertType.
Proof. solve_decision. Defined.

Inductive Severity : Type := critical | warning | info.

(** The [details] object, one shape per alert built in this file. *)
Inductive AlertDetails : Type :=
  | DeathDetails (missed_intervals : Z) (d_last_seen : Z)
      (d_mode : HeartbeatMode) (uptime_before_death : Z)
  | EmergencyDetails (d_previous_mode : option HeartbeatMode)
      (d_uptime_seconds : Z)
  | RestartDetails (d_previous_uptime d_new_uptime : Z)
      (d_mode : HeartbeatMode).

(** [ClusterAlert]; the fields [type], [agent_uuid] and [agent_name] carry
    the prefix [al_] because a record of this file already has them. *)
Record ClusterAlert : Type := mkAlert {
  al_type : AlertType;
  al_agent_uuid : string;
  al_agent_name : string;
  cluster_id : string;
  severity : Severity;
  details : AlertDetails;
  timestamp : Z
}.

Record QueuedAlert : Type := mkQueued {
  alert : ClusterAlert;
  queuedAt : Z;
  attempts : Z
}.

(** The state of an [AlertClient], together with the two effects it has
    on the outside: [posted] logs every [fetch] with its outcome, and
    [scheduled] logs the delay of every [setTimeout(processQueue)]. *)
Record AlertClient : Type := mkClient {
  queue : list QueuedAlert;
  isProcessing : bool;
  lastAlertByAgent : gmap string (AlertType * Z);
  posted : list (ClusterAlert * bool);
  scheduled : list Z
}.

Definition newAlertClient : AlertClient :=
  {| queue := []; isProcessing := false; lastAlertByAgent := ∅;
     posted := []; scheduled := [] |}.

Definition DEDUP_WINDOW_MS : Z := 60000.

(** The outcome of the n-th [fetch] made by the client: [true] when the
    response is ok, [false] on a bad status, a timeout or an exception. *)
Definition Network : Type := nat → bool.

(** The three clock readings of one [sendAlert]: in [isDuplicate], when
    the dedup record is written, and in [queueAlert]. *)
Record SendClock : Type := mkSendClock {
  t_dedup : Z;
  t_record : Z;
  t_queue : Z
}.

Definition isDuplicate (now : Z) (a : ClusterAlert) (c : AlertClient) : bool :=
  match lastAlertByAgent c !! al_agent_uuid a with
  | None => false
  | Some (ty, ts) =>
      let withinWindow := now - ts <? DEDUP_WINDOW_MS in
      let sameType := bool_decide (ty = al_type a) in
      withinWindow && sameType
  end.

Definition attemptSend (net : Network) (a : ClusterAlert) (c : AlertClient)
    : bool * AlertClient :=
  let ok := net (length (posted c)) in
  (ok,
   {| queue := queue c; isProcessing := isProcessing c;
      lastAlertByAgent := lastAlertByAgent c;
      posted := posted c ++ [(a, ok)];
      scheduled := scheduled c |}).

(** [Math.min(5000 * Math.pow(2, this.queue[0]?.attempts || 0), 60000)].
    For a non-negative integer exponent the double product is the exact
    integer or overflows to [Infinity]; [Math.min] returns the cap in both
    cases where the exact product exceeds it. *)
Definition backoffDelay (q : list QueuedAlert) : Z :=
  let n :=
    match head q with
    | Some item => if attempts item =? 0 then 0 else attempts item
    | None => 0
    end in
  Z.min (5000 * 2 ^ n) 60000.

Definition scheduleQueueProcessing (c : AlertClient) : AlertClient :=
  if isProcessing c || bool_decide (length (queue c) = 0%nat) then c
  else
    {| queue := queue c; isProcessing := isProcessing c;
       lastAlertByAgent := lastAlertByAgent c;
       posted := posted c;
       scheduled := scheduled c ++ [backoffDelay (queue c)] |}.

Definition set_queue (c : AlertClient) (q : list QueuedAlert) : AlertClient :=
  {| queue := q; isProcessing := isProcessing c;
     lastAlertByAgent := lastAlertByAgent c;
     posted := posted c; scheduled := scheduled c |}.

Definition set_isProcessing (c : AlertClient) (b : bool) : AlertClient :=
  {| queue := queue c; isProcessing := b;
     lastAlertByAgent := lastAlertByAgent c;
     posted := posted c; scheduled := scheduled c |}.

(** [queueAlert], with [now] its [Date.now()]. *)
Definition queueAlert (cfg : Config) (now : Z) (a : ClusterAlert)
    (c : AlertClient) : AlertClient :=
  let q :=
    if Z.of_nat (length (queue c)) >=? alertQueueMaxSize cfg
    then tail (queue c) else queue c in
  let c1 :=
    set_queue c (q ++ [{| alert := a; queuedAt := now; attempts := 1 |}]) in
  if negb (isProcessing c1) then scheduleQueueProcessing c1 else c1.

(** [this.lastAlertByAgent.set(alert.agent_uuid, {type, timestamp})] *)
Definition set_lastAlert (c : AlertClient) (a : ClusterAlert) (t : Z)
    : AlertClient :=
  {| queue := queue c; isProcessing := isProcessing c;
     lastAlertByAgent := <[al_agent_uuid a := (al_type a, t)]> (lastAlertByAgent c);
     posted := posted c; scheduled := scheduled c |}.

(** A string is falsy when it is empty. *)
Definition noStation (cfg : Config) : bool :=
  bool_decide (stationAlertUrl cfg = EmptyString)
  || bool_decide (stationAlertKey cfg = EmptyString).

Definition sendAlert (cfg : Config) (net : Network) (clk : SendClock)
    (a : ClusterAlert) (c : AlertClient) : AlertClient :=
  if isDuplicate (t_dedup clk) a c then c
  else
    let c1 := set_lastAlert c a (t_record clk) in
    if noStation cfg then c1
    else
      let '(success, c2) := attemptSend net a c1 in
      if success then c2 else queueAlert cfg (t_queue clk) a c2.

(** The loop of [processQueue]: the entries kept, and the client after
    the delivery attempts. *)
Fixpoint drain (cfg : Config) (net : Network) (now : Z)
    (items : list QueuedAlert) (c : AlertClient)
    : list QueuedAlert * AlertClient :=
  match items with
  | [] => ([], c)
  | item :: rest =>
      if now - queuedAt item >? alertQueueTtlMs cfg then drain cfg net now rest c
      else
        let '(success, c1) := attemptSend net (alert item) c in
        if success then drain cfg net now rest c1
        else
          let item' :=
            {| alert := alert item; queuedAt := queuedAt item;
               attempts := attempts item + 1 |} in
          let '(remaining, c2) := drain cfg net now rest c1 in
          (item' :: remaining, c2)
  end.

(** [processQueue], with [now] its [Date.now()]; [flushQueue] is the same
    call. *)
Definition processQueue (cfg : Config) (net : Network) (now : Z)
    (c : AlertClient) : AlertClient :=
  if isProcessing c || bool_decide (length (queue c) = 0%nat) then c
  else
    let c1 := set_isProcessing c true in
    let '(remaining, c2) := drain cfg net now (queue c1) c1 in
    let c3 := set_queue c2 remaining in
    let c4 :=
      if bool_decide (0 < length (queue c3))%nat
      then scheduleQueueProcessing c3 else c3 in
    set_isProcessing c4 false.

Definition flushQueue := processQueue.

(** The three public entry points; [ts] is the [new Date()] of the
    alert's timestamp. *)
Definition deathAlert (cfg : Config) (ts : Z) (entry : HeartbeatEntry)
    (missedIntervals : Z) : ClusterAlert :=
  {| al_type := AGENT_DEATH;
     al_agent_uuid := agent_uuid entry;
     al_agent_name := agent_name entry;
     cluster_id := clusterId cfg;
     severity := critical;
     details := DeathDetails missedIntervals (last_seen entry)
                  (mode entry) (uptime_seconds entry);
     timestamp := ts |}.

Definition alertAgentDeath (cfg : Config) (net : Network) (ts : Z)
    (clk : SendClock) (entry : HeartbeatEntry) (missedIntervals : Z)
    (c : AlertClient) : AlertClient :=
  sendAlert cfg net clk (deathAlert cfg ts entry missedIntervals) c.

Definition alertEmergencyMode (cfg : Config) (net : Network) (ts : Z)
    (clk : SendClock) (entry : HeartbeatEntry)
    (previousMode : option HeartbeatMode) (c : AlertClient) : AlertClient :=
  sendAlert cfg net clk
    {| al_type := EMERGENCY_MODE;
       al_agent_uuid := agent_uuid entry;
       al_agent_name := agent_name entry;
       cluster_id := clusterId cfg;
       severity := warning;
       details := EmergencyDetails previousMode (uptime_seconds entry);
       timestamp := ts |} c.

Definition alertRestartDetected (cfg : Config) (net : Network) (ts : Z)
    (clk : SendClock) (entry : HeartbeatEntry) (previousUptime newUptime : Z)
    (c : AlertClient) : AlertClient :=
  sendAlert cfg net clk
    {| al_type := RESTART_DETECTED;
       al_agent_uuid := agent_uuid entry;
       al_agent_name := agent_name entry;
       cluster_id := clusterId cfg;
       severity := info;
       details := RestartDetails previousUptime newUptime (mode entry);
       timestamp := ts |} c.

(** ** zombie-detector.ts *)

(** The clock readings of one [check]: in [getUnhealthyAgents]; per agent
    in [handleUnhealthyAgent], in [alertAgentDeath] and in [sendAlert];
    per agent in the [isHealthy] of [getAllAgents]. *)
Record ScanClock : Type := mkScanClock {
  t_unhealthy : Z;
  t_handle : string → Z;
  t_alert : string → Z;
  t_send : string → SendClock;
  t_status : string → Z
}.

(** [handleUnhealthyAgent]: the alert it builds and the client after
    [alertAgentDeath]. *)
Definition handleUnhealthyAgent (cfg : Config) (net : Network)
    (clk : ScanClock) (entry : HeartbeatEntry) (c : AlertClient)
    : ClusterAlert * AlertClient :=
  let now := t_handle clk (agent_uuid entry) in
  let elapsed := now - last_seen entry in
  let interval := HEARTBEAT_INTERVALS (mode entry) in
  let missedIntervals := elapsed `div` interval in
  (deathAlert cfg (t_alert clk (agent_uuid entry)) entry missedIntervals,
   alertAgentDeath cfg net (t_alert clk (agent_uuid entry))
     (t_send clk (agent_uuid entry)) entry missedIntervals c).

(** The detector's state next to the client it owns: [alertedAgents],
    the client, and the alerts handed to the client so far. *)
Definition Detector : Type := gset string * AlertClient * list ClusterAlert.

Definition alertedAgents (d : Detector) : gset string := d.1.1.
Definition alertClient (d : Detector) : AlertClient := d.1.2.
Definition dispatched (d : Detector) : list ClusterAlert := d.2.

Definition newDetector : Detector := (∅, newAlertClient, []).

(** The body of the first loop of [check]. *)
Definition alertStep (cfg : Config) (net : Network) (clk : ScanClock)
    (d : Detector) (agent : HeartbeatEntry) : Detector :=
  if bool_decide (agent_uuid agent ∈ alertedAgents d) then d
  else
    let '(a, c) := handleUnhealthyAgent cfg net clk agent (alertClient d) in
    ({[agent_uuid agent]} ∪ alertedAgents d, c, dispatched d ++ [a]).

(** The body of the second loop of [check]. *)
Definition recoverStep (alerted : gset string) (agent : AgentStatus)
    : gset string :=
  if healthy agent && bool_decide (st_agent_uuid agent ∈ alerted)
  then alerted ∖ {[st_agent_uuid agent]} else alerted.

Definition check (cfg : Config) (net : Network) (clk : ScanClock)
    (store : HeartbeatStore) (d : Detector) : Detector :=
  let unhealthy := getUnhealthyAgents (t_unhealthy clk) store in
  let d1 := foldl (alertStep cfg net clk) d unhealthy in
  let allAgents := getAllAgents (t_status clk) store in
  (foldl recoverStep (alertedAgents d1) allAgents, alertClient d1, dispatched d1).

(** [handleEmergencyMode] and [handleRestartDetected], called from the
    heartbeat route. *)
Definition handleEmergencyMode (cfg : Config) (net : Network) (ts : Z)
    (clk : SendClock) (entry : HeartbeatEntry)
    (previousMode : option HeartbeatMode) (c : AlertClient) : AlertClient :=
  if bool_decide (mode entry = EMERGENCY)
     && bool_decide (previousMode ≠ Some EMERGENCY)
  then alertEmergencyMode cfg net ts clk entry previousMode c else c.

Definition handleRestartDetected (cfg : Config) (net : Network) (ts : Z)
    (clk : SendClock) (entry : HeartbeatEntry) (previousUptime newUptime : Z)
    (c : AlertClient) : AlertClient :=
  alertRestartDetected cfg net ts clk entry previousUptime newUptime c.

(** ** routes/heartbeat.ts *)

(** A payload that passed the two validations of the route: [mode] is one
    of the three modes and [uptime_seconds] is a number. *)
Record HeartbeatPayload : Type := mkPayload {
  p_mode : HeartbeatMode;
  p_uptime_seconds : Z;
  p_agent_name : option string
}.

(** The clock readings of one request: in the two [getAgent] calls, in
    [recordHeartbeat], in the entry literals, and in each alert. *)
Record RouteClock : Type := mkRouteClock {
  rc_before : Z;
  rc_record : Z;
  rc_after : Z;
  rc_entry : Z;
  rc_emergency_ts : Z;
  rc_emergency : SendClock;
  rc_restart_ts : Z;
  rc_restart : SendClock
}.

Record HeartbeatResponse : Type := mkResponse {
  received : bool;
  is_new : bool;
  restart_detected : bool;
  next_heartbeat_ms : Z
}.

(** The handler of [POST /heartbeat/:agentId] for a valid payload.  The
    two alerts are started without being awaited; each runs here to its
    end before the next statement. *)
Definition postHeartbeat (cfg : Config) (net : Network) (clk : RouteClock)
    (agentId : string) (body : HeartbeatPayload)
    (s : HeartbeatStore * AlertClient)
    : HeartbeatStore * AlertClient * HeartbeatResponse :=
  let agentName :=
    match p_agent_name body with
    | Some n => if bool_decide (n = EmptyString) then agentId else n
    | None => agentId
    end in
  let currentAgent := getAgent (rc_before clk) agentId s.1 in
  let previousMode := st_mode <$> currentAgent in
  let previousUptime := st_uptime_seconds <$> currentAgent in
  let '(store, r, _) :=
    recordHeartbeat (rc_record clk) agentId agentName (p_mode body)
      (p_uptime_seconds body) s.1 in
  let updatedAgent := getAgent (rc_after clk) agentId store in
  let literal :=
    {| agent_uuid := agentId; agent_name := agentName; mode := p_mode body;
       uptime_seconds := p_uptime_seconds body;
       last_seen := rc_entry clk; first_seen := rc_entry clk;
       consecutive_heartbeats := 1; observation_mode := false;
       previous_mode := None; previous_uptime := None |} in
  let c :=
    match updatedAgent with
    | Some _ =>
        let c1 :=
          if bool_decide (p_mode body = EMERGENCY)
             && bool_decide (is_Some previousMode)
             && bool_decide (previousMode ≠ Some EMERGENCY)
          then handleEmergencyMode cfg net (rc_emergency_ts clk)
                 (rc_emergency clk) literal previousMode s.2
          else s.2 in
        match previousUptime with
        | Some pu =>
            if restartDetected r
            then handleRestartDetected cfg net (rc_restart_ts clk)
                   (rc_restart clk) literal pu (p_uptime_seconds body) c1
            else c1
        | None => c1
        end
    | None => s.2
    end in
  (store, c,
   {| received := true; is_new := isNew r;
      restart_detected := restartDetected r;
      next_heartbeat_ms := HEARTBEAT_INTERVALS (p_mode body) |}).

(** A run of requests, each with its clock, agent id and payload. *)
Definition postAll (cfg : Config) (net : Network)
    (reqs : list (RouteClock * string * HeartbeatPayload))
    (s : HeartbeatStore * AlertClient) : HeartbeatStore * AlertClient :=
  foldl (λ s q, (postHeartbeat cfg net q.1.1 q.1.2 q.2 s).1) s reqs.

(** ** store.ts: statistics *)

(** The object returned by [getStats]; [byMode] is the record of one
    counter per mode and is read as a function of the mode. *)
Record Stats : Type := mkStats {
  total : Z;
  s_healthy : Z;
  s_unhealthy : Z;
  byMode : HeartbeatMode → Z;
  observed : Z
}.

(** [byMode[entry.mode]++] *)
Definition bumpMode (m : HeartbeatMode) (f : HeartbeatMode → Z)
    : HeartbeatMode → Z :=
  λ m', if bool_decide (m' = m) then f m' + 1 else f m'.

(** The body of the loop of [getStats]. *)
Definition statsStep (now : Z) (acc : Stats) (entry : HeartbeatEntry) : Stats :=
  {| total := total acc;
     s_healthy := if isHealthy entry now then s_healthy acc + 1 else s_healthy acc;
     s_unhealthy := if isHealthy entry now then s_unhealthy acc else s_unhealthy acc + 1;
     byMode := bumpMode (mode entry) (byMode acc);
     observed := if observation_mode entry then observed acc + 1 else observed acc |}.

(** [getStats], with [now] its [Date.now()]; [total] is [this.agents.size]. *)
Definition getStats (now : Z) (st : HeartbeatStore) : Stats :=
  foldl (statsStep now)
    {| total := Z.of_nat (size (agents st)); s_healthy := 0; s_unhealthy := 0;
       byMode := λ _, 0; observed := 0 |}
    (entries st).

(** ** alert-client.ts: queue statistics *)

Record QueueStats : Type := mkQueueStats {
  qs_size : Z;
  oldestAge : option Z
}.

(** [getQueueStats], with [now] its [Date.now()]. *)
Definition getQueueStats (now : Z) (c : AlertClient) : QueueStats :=
  match queue c with
  | [] => {| qs_size := 0; oldestAge := None |}
  | first :: _ =>
      {| qs_size := Z.of_nat (length (queue c));
         oldestAge := Some (now - queuedAt first) |}
  end.

(** ** zombie-detector.ts: [getAlertedAgents] *)

Definition getAlertedAgents (d : Detector) : list string :=
  elements (alertedAgents d).

(** ** middleware/auth.ts *)

(** The two request headers the middleware reads; a header that is
    absent is [None]. *)
Record AuthHeaders : Type := mkAuthHeaders {
  x_collector_key : option string;
  authorization : option string
}.

(** What the middleware does with the request: call [next()], or answer
    with the status 401. *)
Inductive AuthOutcome : Type := Next | Unauthorized (status : Z).

(** [s.slice(n)] for [n] within the string. *)
Definition slice (n : nat) (s : string) : string :=
  String.substring n (String.length s - n) s.

(** [requireApiKey(config)] applied to a request. *)
Definition requireApiKey (cfg : Config) (h : AuthHeaders) : AuthOutcome :=
  if bool_decide (collectorApiKey cfg = EmptyString) then Next
  else if bool_decide (x_collector_key h = Some (collectorApiKey cfg)) then Next
  else
    match authorization h with
    | Some authHeader =>
        if String.prefix "Bearer " authHeader
           && bool_decide (slice 7 authHeader = collectorApiKey cfg)
        then Next else Unauthorized 401
    | None => Unauthorized 401
    end.

(** ** routes/agents.ts *)

(** The answer of [GET /agents/:agentId]: the status and, on 200, the
    agent. *)
Definition getAgentRoute (now : Z) (agentId : string) (st : HeartbeatStore)
    : Z * option AgentStatus :=
  match getAgent now agentId st with
  | None => (404, None)
  | Some agent => (200, Some agent)
  end.

(** The answer of [GET /agents]: the statistics and the list of agents. *)
Definition listAgentsRoute (clock : string → Z) (now : Z) (st : HeartbeatStore)
    : Stats * list AgentStatus :=
  (getStats now st, getAllAgents clock st).

(** [DELETE /agents/:agentId]: the status, and the store afterwards. *)
Definition deleteAgentRoute (agentId : string) (st : HeartbeatStore)
    : Z * HeartbeatStore :=
  let '(existed, st') := removeAgent agentId st in
  if existed then (200, st') else (404, st').

(** ** routes/heartbeat.ts: validation *)

(** A value found in a parsed JSON body; numbers are the integers. *)
Inductive JsValue : Type :=
  | JsUndefined
  | JsNull
  | JsBool (b : bool)
  | JsNumber (n : Z)
  | JsString (s : string)
  | JsObject.

Definition truthy (v : JsValue) : bool :=
  match v with
  | JsUndefined | JsNull => false
  | JsBool b => b
  | JsNumber n => negb (n =? 0)
  | JsString s => negb (bool_decide (s = EmptyString))
  | JsObject => true
  end.

(** [typeof v === 'number'] *)
Definition isNumber (v : JsValue) : bool :=
  match v with JsNumber _ => true | _ => false end.

(** The key of [HEARTBEAT_INTERVALS] a string is, if any. *)
Definition modeOfString (s : string) : option HeartbeatMode :=
  if bool_decide (s = "EMERGENCY") then Some EMERGENCY
  else if bool_decide (s = "IDLE") then Some IDLE
  else if bool_decide (s = "SLEEP") then Some SLEEP
  else None.

(** The body of a request before validation; [agent_name] is a string
    when present. *)
Record RawPayload : Type := mkRawPayload {
  r_mode : JsValue;
  r_uptime_seconds : JsValue;
  r_agent_name : option string
}.

Inductive HeartbeatReply : Type :=
  | Rejected (status : Z) (error : string)
  | Accepted (status : Z) (response : HeartbeatResponse).

(** The handler of [POST /heartbeat/:agentId] with its two validations. *)
Definition heartbeatRoute (cfg : Config) (net : Network) (clk : RouteClock)
    (agentId : string) (body : RawPayload) (s : HeartbeatStore * AlertClient)
    : HeartbeatStore * AlertClient * HeartbeatReply :=
  if negb (truthy (r_mode body)) || negb (isNumber (r_uptime_seconds body))
  then (s, Rejected 400 "Invalid heartbeat payload")
  else
    match r_mode body, r_uptime_seconds body with
    | JsString m, JsNumber up =>
        match modeOfString m with
        | Some mode0 =>
            let out :=
              postHeartbeat cfg net clk agentId
                {| p_mode := mode0; p_uptime_seconds := up;
                   p_agent_name := r_agent_name body |} s in
            (out.1, Accepted 200 out.2)
        | None => (s, Rejected 400 "Invalid mode")
        end
    | _, _ => (s, Rejected 400 "Invalid mode")
    end.

(** ** Traces of calls *)

(** The calls that reach the store: a report from the heartbeat route, a
    subscription from the observe route, a cleanup closure being run, and
    a removal from the agents route. *)
Inductive StoreOp : Type :=
  | OpReport (now : Z) (agentUuid agentName : string) (m : HeartbeatMode)
      (uptimeSeconds : Z)
  | OpSubscribe (agentUuid : string) (callback : Callback)
  | OpCleanup (c : Cleanup)
  | OpRemove (agentUuid : string).

Definition storeStep (st : HeartbeatStore) (op : StoreOp) : HeartbeatStore :=
  match op with
  | OpReport now id name m up => (recordHeartbeat now id name m up st).1.1
  | OpSubscribe id cb => (enableObservation id cb st).2
  | OpCleanup c => runCleanup c st
  | OpRemove id => (removeAgent id st).2
  end.

Definition runStore (ops : list StoreOp) (st : HeartbeatStore) : HeartbeatStore :=
  foldl storeStep st ops.

(** The arrival times of the reports of agent [a] in a trace, in order. *)
Definition reportTimes (a : string) (ops : list StoreOp) : list Z :=
  omap (λ op,
    match op with
    | OpReport now id _ _ _ => if bool_decide (id = a) then Some now else None
    | _ => None
    end) ops.

Definition removes (a : string) (op : StoreOp) : Prop :=
  match op with
  | OpRemove id => id = a
  | _ => False
  end.

(** The calls that reach the alert client: [sendAlert] through one of the
    three public methods, and [processQueue] from a timer or [flushQueue]. *)
Inductive ClientOp : Type :=
  | OpSend (clk : SendClock) (a : ClusterAlert)
  | OpProcess (now : Z).

Definition clientStep (cfg : Config) (net : Network) (c : AlertClient)
    (op : ClientOp) : AlertClient :=
  match op with
  | OpSend clk a => sendAlert cfg net clk a c
  | OpProcess now => processQueue cfg net now c
  end.

Definition runClient (cfg : Config) (net : Network) (ops : list ClientOp)
    (c : AlertClient) : AlertClient :=
  foldl (clientStep cfg net) c ops.

(** A run of scans: each scan sees the store as it is at that moment. *)
Definition runScans (cfg : Config) (net : Network)
    (scans : list (ScanClock * HeartbeatStore)) (d : Detector) : Detector :=
  foldl (λ d s, check cfg net s.1 s.2 d) d scans.

(** The number of [AGENT_DEATH] alerts for agent [a] in a list of alerts. *)
Definition deathAlertsFor (a : string) (l : list ClusterAlert) : nat :=
  length (filter (λ x, al_type x = AGENT_DEATH ∧ al_agent_uuid x = a) l).

(** ** Observers of the state and invariants *)

(** The lifetime counter and the last arrival time stored for [a]; 0 and
    [None] while [a] has no record. *)
Definition counterOf (a : string) (st : HeartbeatStore) : Z :=
  default 0 (consecutive_heartbeats <$> agents st !! a).

Definition lastSeenOf (a : string) (st : HeartbeatStore) : option Z :=
  last_seen <$> agents st !! a.

(** The callbacks registered for an agent, in registration order. *)
Definition subscribers (a : string) (st : HeartbeatStore) : list Callback :=
  match observationCallbacks st !! a with
  | Some r => deref r (sets st)
  | None => []
  end.

Definition observedFlag (a : string) (st : HeartbeatStore) : option bool :=
  observation_mode <$> agents st !! a.

(** A run of [queueAlert] calls, each with the clock reading it makes. *)
Definition enqueueAll (cfg : Config) (l : list (Z * ClusterAlert))
    (c : AlertClient) : AlertClient :=
  foldl (λ c x, queueAlert cfg x.1 x.2 c) c l.

(** What holds of every client state: each queued entry has been tried
    at least once, and each timer was set to 10 s or more. *)
Definition clientInv (c : AlertClient) : Prop :=
  Forall (λ q, 1 ≤ attempts q) (queue c) ∧
  Forall (λ d, 10000 ≤ d ≤ 60000) (scheduled c).

(** Every record is stored under its own [agent_uuid]. *)
Definition storeWf (st : HeartbeatStore) : Prop :=
  map_Forall (λ k e, agent_uuid e = k) (agents st).

(** The clock does not run backwards within one [check]. *)
Definition clockOk (clk : ScanClock) : Prop :=
  ∀ id, t_unhealthy clk ≤ t_status clk id.

Definition scanOk (s : ScanClock * HeartbeatStore) : Prop :=
  clockOk s.1 ∧ storeWf s.2.

(** Agent [a] is found unhealthy by the scan [s] / has a healthy verdict
    in the scan [s]. *)
Definition unhealthyIn (a : string) (s : ScanClock * HeartbeatStore) : Prop :=
  ∃ e, agents s.2 !! a = Some e ∧ isHealthy e (t_unhealthy s.1) = false.

Definition healthyIn (a : string) (s : ScanClock * HeartbeatStore) : Prop :=
  ∃ e, agents s.2 !! a = Some e ∧ isHealthy e (t_status s.1 a) = true.

(** The arrival time and the name of each report of agent [a] in a
    trace, in order. *)
Definition reportsOf (a : string) (ops : list StoreOp) : list (Z * string) :=
  omap (λ op,
    match op with
    | OpReport now id name _ _ =>
        if bool_decide (id = a) then Some (now, name) else None
    | _ => None
    end) ops.

(** What a record keeps from its creation: first arrival time, name, id. *)
Definition identityOf (a : string) (st : HeartbeatStore)
    : option (Z * string * string) :=
  (λ e, (first_seen e, agent_name e, agent_uuid e)) <$> agents st !! a.

(** The entries of a queue that a drain pass at [now] still tries: those
    whose age does not exceed the TTL. *)
Definition liveEntries (cfg : Config) (now : Z) (q : list QueuedAlert)
    : list QueuedAlert :=
  filter (λ item, (now - queuedAt item >? alertQueueTtlMs cfg) = false) q.

(** An entry after one more failed attempt. *)
Definition retried (item : QueuedAlert) : QueuedAlert :=
  {| alert := alert item; queuedAt := queuedAt item;
     attempts := attempts item + 1 |}.

(** [q'] is the queued entry [q] at a later time: the same alert, queued
    at the same time, with at least the attempts of [q]. *)
Definition laterOf (q q' : QueuedAlert) : Prop :=
  alert q' = alert q ∧ queuedAt q' = queuedAt q ∧ attempts q ≤ attempts q'.

(** The clock readings that the [sendAlert] calls of a trace use as
    [queuedAt], in order. *)
Definition sendTimes (ops : list ClientOp) : list Z :=
  omap (λ op,
    match op with
    | OpSend clk _ => Some (t_queue clk)
    | OpProcess _ => None
    end) ops.

(** The queue is in order of [queuedAt], and nothing in it was queued
    after [lo]. *)
Definition fifoInv (lo : Z) (c : AlertClient) : Prop :=
  StronglySorted Z.le (queuedAt <$> queue c) ∧
  Forall (λ q, queuedAt q ≤ lo) (queue c).

(** The alert [handleUnhealthyAgent] builds for a record in a scan. *)
Definition deathAlertOf (cfg : Config) (clk : ScanClock) (e : HeartbeatEntry)
    : ClusterAlert :=
  deathAlert cfg (t_alert clk (agent_uuid e)) e
    ((t_handle clk (agent_uuid e) - last_seen e)
       `div` HEARTBEAT_INTERVALS (mode e)).

(** What the client holds about agent [a]: its dedup record, and the
    requests made so far for alerts of [a], in order, each with its
    outcome. *)
Definition dedupOf (a : string) (c : AlertClient) : option (AlertType * Z) :=
  lastAlertByAgent c !! a.

Definition requestsFor (a : string) (c : AlertClient)
    : list (ClusterAlert * bool) :=
  filter (λ p, al_agent_uuid p.1 = a) (posted c).

(** Between the client states [c] and [c'] no alert of agent [a] was
    recorded and no request was made for one. *)
Definition untouched (a : string) (c c' : AlertClient) : Prop :=
  dedupOf a c' = dedupOf a c ∧ requestsFor a c' = requestsFor a c.

(** Between the client states [c] and [c'] the alert [x] went through
    [sendAlert] with the clock readings [clk], and no other alert of its
    agent did: a duplicate leaves no trace; any other alert becomes the
    dedup record of its agent and, when a station is configured, is the
    object of one more request. *)
Definition clientOutcome (cfg : Config) (clk : SendClock) (x : ClusterAlert)
    (c c' : AlertClient) : Prop :=
  if isDuplicate (t_dedup clk) x c then untouched (al_agent_uuid x) c c'
  else
    dedupOf (al_agent_uuid x) c' = Some (al_type x, t_record clk) ∧
    ∃ ok, requestsFor (al_agent_uuid x) c'
          = requestsFor (al_agent_uuid x) c
            ++ (if noStation cfg then [] else [(x, ok)]).

(** The alerts of one scan going through [sendAlert] one after the
    other, each with the clock readings the scan has for its agent. *)
Definition sendNews (cfg : Config) (net : Network) (clk : ScanClock)
    (news : list ClusterAlert) (c : AlertClient) : AlertClient :=
  foldl (λ c x, sendAlert cfg net (t_send clk (al_agent_uuid x)) x c) c news.

(** The key of [HEARTBEAT_INTERVALS] for a mode. *)
Definition modeName (m : HeartbeatMode) : string :=
  match m with
  | EMERGENCY => "EMERGENCY"
  | IDLE => "IDLE"
  | SLEEP => "SLEEP"
  end.

(** Every record is stored under its own id and has counted at least
    one report. *)
Definition recordsOk (st : HeartbeatStore) : Prop :=
  map_Forall (λ k e, agent_uuid e = k ∧ 1 ≤ consecutive_heartbeats e) (agents st).

(** A run of [sendAlert] calls, each with its clock readings. *)
Definition sendAll (cfg : Config) (net : Network)
    (l : list (SendClock * ClusterAlert)) (c : AlertClient) : AlertClient :=
  foldl (λ c x, sendAlert cfg net x.1 x.2 c) c l.

(** The name the heartbeat route gives an agent: [body.agent_name || agentId]. *)
Definition routeName (agentId : string) (body : HeartbeatPayload) : string :=
  match p_agent_name body with
  | Some n => if bool_decide (n = EmptyString) then agentId else n
  | None => agentId
  end.

(** ** Inputs used in the examples *)

(** A store with one IDLE record, last seen at time 0. *)
Definition store1 : HeartbeatStore :=
  (recordHeartbeat 0 "agent-1" "worker" IDLE 100 emptyStore).1.1.

Definition entry1 : HeartbeatEntry :=
  {| agent_uuid := "agent-1"; agent_name := "worker"; mode := IDLE;
     uptime_seconds := 100; last_seen := 0; first_seen := 0;
     consecutive_heartbeats := 1; observation_mode := false;
     previous_mode := None; previous_uptime := None |}.

(** Three reports of one agent, with a subscription, a report of another
    agent and the removal of that other agent in between. *)
Definition trace8 : list StoreOp :=
  [ OpReport 1000 "agent-1" "worker" IDLE 10;
    OpSubscribe "agent-1" 0%nat;
    OpReport 1500 "agent-2" "other" SLEEP 3;
    OpReport 31000 "agent-1" "worker" IDLE 40;
    OpRemove "agent-2";
    OpReport 61000 "agent-1" "worker" EMERGENCY 70 ].

(** A collector with a station configured, and one without. *)
Definition cfgStation : Config :=
  {| port := 8080;
     stationAlertUrl := "https://station.example/api/alerts";
     stationAlertKey := "pg_in_key";
     collectorApiKey := EmptyString;
     clusterId := "cluster-1";
     clusterName := "cluster-1";
     zombieCheckIntervalMs := 10000;
     alertQueueMaxSize := 100;
     alertQueueTtlMs := 300000 |}.

Definition cfgLogOnly : Config :=
  {| port := 8080;
     stationAlertUrl := EmptyString;
     stationAlertKey := EmptyString;
     collectorApiKey := EmptyString;
     clusterId := "cluster-1";
     clusterName := "cluster-1";
     zombieCheckIntervalMs := 10000;
     alertQueueMaxSize := 100;
     alertQueueTtlMs := 300000 |}.

(** The station answers every request / no request. *)
Definition netUp : Network := λ _, true.
Definition netDown : Network := λ _, false.

(** All clock readings of one call at the same millisecond. *)
Definition at_ (t : Z) : SendClock :=
  {| t_dedup := t; t_record := t; t_queue := t |}.

(** The alerts a heartbeat route emits for "agent-1". *)
Definition emergencyAlert (ts : Z) : ClusterAlert :=
  {| al_type := EMERGENCY_MODE; al_agent_uuid := "agent-1";
     al_agent_name := "worker"; cluster_id := "cluster-1";
     severity := warning; details := EmergencyDetails (Some IDLE) 105;
     timestamp := ts |}.

Definition restartAlert (ts : Z) : ClusterAlert :=
  {| al_type := RESTART_DETECTED; al_agent_uuid := "agent-1";
     al_agent_name := "worker"; cluster_id := "cluster-1";
     severity := info; details := RestartDetails 105 0 IDLE;
     timestamp := ts |}.

(** All clock readings of one request at the same millisecond. *)
Definition routeAt (t : Z) : RouteClock :=
  {| rc_before := t; rc_record := t; rc_after := t; rc_entry := t;
     rc_emergency_ts := t; rc_emergency := at_ t;
     rc_restart_ts := t; rc_restart := at_ t |}.

(** Four heartbeats of "agent-1" within 7 s: IDLE, EMERGENCY, IDLE after
    a restart, EMERGENCY. *)
Definition fourReports : list (RouteClock * string * HeartbeatPayload) :=
  [ (routeAt 0, "agent-1",
     {| p_mode := IDLE; p_uptime_seconds := 100; p_agent_name := Some "worker" |});
    (routeAt 5000, "agent-1",
     {| p_mode := EMERGENCY; p_uptime_seconds := 105; p_agent_name := Some "worker" |});
    (routeAt 6000, "agent-1",
     {| p_mode := IDLE; p_uptime_seconds := 0; p_agent_name := Some "worker" |});
    (routeAt 7000, "agent-1",
     {| p_mode := EMERGENCY; p_uptime_seconds := 1; p_agent_name := Some "worker" |}) ].

(** A queue of at most two entries that receives three alerts. *)
Definition cfgSmall : Config :=
  {| port := 8080;
     stationAlertUrl := "https://station.example/api/alerts";
     stationAlertKey := "pg_in_key";
     collectorApiKey := EmptyString;
     clusterId := "cluster-1";
     clusterName := "cluster-1";
     zombieCheckIntervalMs := 10000;
     alertQueueMaxSize := 2;
     alertQueueTtlMs := 300000 |}.

Definition threeAlerts : list (Z * ClusterAlert) :=
  [(0, emergencyAlert 0); (1000, restartAlert 1000); (2000, emergencyAlert 2000)].

(** One alert for a station that does not answer. *)
Definition queuedOnce : AlertClient :=
  sendAlert cfgStation netDown (at_ 0) (emergencyAlert 0) newAlertClient.

(** Two alerts that cannot be delivered, with a failed drain pass after
    each. *)
Definition trace10 : list ClientOp :=
  [ OpSend (at_ 0) (emergencyAlert 0);
    OpProcess 10000;
    OpSend (at_ 11000) (restartAlert 11000);
    OpProcess 31000 ].

(** All clock readings of one scan at the same millisecond. *)
Definition clockAt (t : Z) : ScanClock :=
  {| t_unhealthy := t; t_handle := λ _, t; t_alert := λ _, t;
     t_send := λ _, at_ t; t_status := λ _, t |}.

(** "agent-1" reports at 0 ms and again at 75 s. *)
Definition store2 : HeartbeatStore :=
  (recordHeartbeat 75000 "agent-1" "worker" IDLE 175 store1).1.1.

Definition entry2 : HeartbeatEntry :=
  {| agent_uuid := "agent-1"; agent_name := "worker"; mode := IDLE;
     uptime_seconds := 175; last_seen := 75000; first_seen := 0;
     consecutive_heartbeats := 2; observation_mode := false;
     previous_mode := Some IDLE; previous_uptime := Some 100 |}.

Definition firstOutage : list (ScanClock * HeartbeatStore) :=
  [(clockAt 61000, store1); (clockAt 71000, store1)].

Definition secondOutage : list (ScanClock * HeartbeatStore) :=
  [(clockAt 141000, store2); (clockAt 151000, store2)].

(** An EMERGENCY agent that goes silent, reports once at 11 s and goes
    silent again; scans at 10.5 s, 20.5 s and 30.5 s. *)
Definition storeE1 : HeartbeatStore :=
  (recordHeartbeat 0 "agent-9" "pump" EMERGENCY 50 emptyStore).1.1.

Definition storeE2 : HeartbeatStore :=
  (recordHeartbeat 11000 "agent-9" "pump" EMERGENCY 61 storeE1).1.1.

Definition quickRelapse : list (ScanClock * HeartbeatStore) :=
  [(clockAt 10500, storeE1); (clockAt 20500, storeE2); (clockAt 30500, storeE2)].

(** Two reports of one agent under two names. *)
Definition renamed : list StoreOp :=
  [ OpReport 1000 "agent-1" "worker" IDLE 10;
    OpReport 31000 "agent-1" "renamed-worker" IDLE 40 ].

(** A collector whose agents route is protected by a key. *)
Definition cfgKey : Config :=
  {| port := 8080;
     stationAlertUrl := EmptyString;
     stationAlertKey := EmptyString;
     collectorApiKey := "s3cret";
     clusterId := "cluster-1";
     clusterName := "cluster-1";
     zombieCheckIntervalMs := 10000;
     alertQueueMaxSize := 100;
     alertQueueTtlMs := 300000 |}.

(** A queue with a maximum of zero entries. *)
Definition cfgZero : Config :=
  {| port := 8080;
     stationAlertUrl := "https://station.example/api/alerts";
     stationAlertKey := "pg_in_key";
     collectorApiKey := EmptyString;
     clusterId := "cluster-1";
     clusterName := "cluster-1";
     zombieCheckIntervalMs := 10000;
     alertQueueMaxSize := 0;
     alertQueueTtlMs := 300000 |}.

(** EMERGENCY_MODE alerts for "agent-1" every 20 s. *)
Definition burst : list (SendClock * ClusterAlert) :=
  [ (at_ 20000, emergencyAlert 20000); (at_ 40000, emergencyAlert 40000);
    (at_ 59999, emergencyAlert 59999) ].

(** * Properties *)

(** A closed decidable proposition, settled by evaluating its decision
    procedure. *)
Ltac by_evaluation :=
  apply (bool_decide_unpack _); vm_compute; exact I.

(** ** The liveness store *)

Section StoreFacts.

Implicit Types (st : HeartbeatStore) (e : HeartbeatEntry) (a : string).

Lemma isHealthy_spec e now :
  isHealthy e now = true ↔ now - last_seen e < 2 * HEARTBEAT_INTERVALS (mode e).
Proof.
  unfold isHealthy, ZOMBIE_GRACE_MULTIPLIER. rewrite Z.ltb_lt. lia.
Qed.

Lemma isHealthy_mono e t1 t2 :
  t1 ≤ t2 → isHealthy e t1 = false → isHealthy e t2 = false.
Proof.
  intros Hle H1. destruct (isHealthy e t2) eqn:H2; [|done].
  apply isHealthy_spec in H2.
  assert (isHealthy e t1 = true) as Hc by (apply isHealthy_spec; lia).
  congruence.
Qed.

Lemma elem_of_entries st e :
  e ∈ entries st ↔ ∃ k, agents st !! k = Some e.
Proof.
  unfold entries. rewrite list_elem_of_fmap. split.
  - intros [[k e'] [-> Hin]]. exists k. by apply elem_of_map_to_list.
  - intros [k Hk]. exists (k, e). split; [done|]. by apply elem_of_map_to_list.
Qed.

Lemma elem_of_getUnhealthyAgents st now e :
  e ∈ getUnhealthyAgents now st ↔
  (∃ k, agents st !! k = Some e) ∧ isHealthy e now = false.
Proof.
  unfold getUnhealthyAgents. rewrite list_elem_of_filter, elem_of_entries. tauto.
Qed.

End StoreFacts.

(** C3.  The health verdict of a record read at [now] is the comparison
    [now - lastSeenAt < 2 * interval(mode)], with intervals of 5000,
    30000 and 900000 ms; [getUnhealthyAgents] returns exactly the stored
    records for which the comparison fails at the time of the call; an
    IDLE record seen 59 s ago is healthy and one seen 61 s ago is not. *)
Theorem C3_health_verdict (st : HeartbeatStore) (now : Z) :
  HEARTBEAT_INTERVALS EMERGENCY = 5000 ∧
  HEARTBEAT_INTERVALS IDLE = 30000 ∧
  HEARTBEAT_INTERVALS SLEEP = 900000 ∧
  (∀ e, isHealthy e now = true ↔
        now - last_seen e < 2 * HEARTBEAT_INTERVALS (mode e)) ∧
  (∀ e, e ∈ getUnhealthyAgents now st ↔
        (∃ k, agents st !! k = Some e) ∧
        ¬ (now - last_seen e < 2 * HEARTBEAT_INTERVALS (mode e))) ∧
  (∀ e, mode e = IDLE →
        (now - last_seen e = 59000 → isHealthy e now = true) ∧
        (now - last_seen e = 61000 → isHealthy e now = false)).
Proof.
  split; [reflexivity|]. split; [reflexivity|]. split; [reflexivity|].
  split; [intros e; apply isHealthy_spec|]. split.
  - intros e. rewrite elem_of_getUnhealthyAgents, <- isHealthy_spec.
    destruct (isHealthy e now); intuition congruence.
  - intros e Hmode. split; intros Hd.
    + apply isHealthy_spec. rewrite Hmode. simpl. lia.
    + destruct (isHealthy e now) eqn:Hh; [|done].
      apply isHealthy_spec in Hh. rewrite Hmode in Hh. simpl in Hh. lia.
Qed.

Example store1_lookup : agents store1 !! "agent-1" = Some entry1.
Proof. reflexivity. Qed.

Lemma C3_health_verdict_witness :
  entry1 ∈ getUnhealthyAgents 61000 store1 ∧ isHealthy entry1 59000 = true.
Proof.
  destruct (C3_health_verdict store1 61000) as (_ & _ & _ & _ & Hu & _).
  destruct (C3_health_verdict store1 59000) as (_ & _ & _ & Hh & _).
  split.
  - apply Hu. split; [exists "agent-1"; reflexivity|]. simpl. lia.
  - apply Hh. simpl. lia.
Defined.

(** C4.  [recordHeartbeat] reports a restart exactly when the agent has a
    record whose stored uptime is more than 10 s above the reported one:
    a drop of 11 s or more gives [true], a drop of exactly 10 s gives
    [false], and the first report of an unknown agent gives [false]. *)
Theorem C4_restart_detected (st : HeartbeatStore) (now : Z)
    (id name : string) (m : HeartbeatMode) (up : Z) :
  let r := (recordHeartbeat now id name m up st).1.2 in
  (restartDetected r = true ↔
     ∃ e, agents st !! id = Some e ∧ uptime_seconds e - up > 10) ∧
  (∀ e, agents st !! id = Some e →
        (11 ≤ uptime_seconds e - up → restartDetected r = true) ∧
        (uptime_seconds e - up = 10 → restartDetected r = false)) ∧
  (agents st !! id = None → restartDetected r = false ∧ isNew r = true).
Proof.
  unfold recordHeartbeat. destruct (agents st !! id) as [e|] eqn:He; simpl.
  - split; [|split].
    + rewrite Z.gtb_gt. split.
      * intros Hgt. exists e. split; [done|lia].
      * intros (e' & [= <-] & Hgt). lia.
    + intros e' [= <-]. split.
      * intros Hge. apply Z.gtb_gt. lia.
      * intros Heq. rewrite Z.gtb_ltb. apply Z.ltb_ge. lia.
    + discriminate.
  - split; [|split].
    + split; [discriminate|]. by intros (e' & ? & _).
    + discriminate.
    + done.
Qed.

Lemma C4_restart_detected_witness :
  restartDetected (recordHeartbeat 5000 "agent-1" "worker" IDLE 89 store1).1.2 = true ∧
  restartDetected (recordHeartbeat 5000 "agent-1" "worker" IDLE 90 store1).1.2 = false ∧
  restartDetected (recordHeartbeat 5000 "agent-2" "other" IDLE 0 store1).1.2 = false.
Proof.
  split; [|split].
  - destruct (C4_restart_detected store1 5000 "agent-1" "worker" IDLE 89)
      as (_ & H & _).
    apply (H entry1); [reflexivity|]. simpl. lia.
  - destruct (C4_restart_detected store1 5000 "agent-1" "worker" IDLE 90)
      as (_ & H & _).
    apply (H entry1); [reflexivity|]. simpl. lia.
  - destruct (C4_restart_detected store1 5000 "agent-2" "other" IDLE 0)
      as (_ & _ & H).
    apply H. reflexivity.
Defined.

Section ReportCounter.

Variable a : string.

Lemma storeStep_counter st op :
  ¬ removes a op →
  counterOf a (storeStep st op)
    = counterOf a st + Z.of_nat (length (reportTimes a [op])) ∧
  lastSeenOf a (storeStep st op)
    = from_option Some (lastSeenOf a st) (last (reportTimes a [op])).
Proof.
  unfold counterOf, lastSeenOf, reportTimes.
  destruct op as [now id name m up|id cb|c|id]; simpl; intros Hrm.
  - unfold recordHeartbeat. case_bool_decide as Hid; simpl.
    + subst id. destruct (agents st !! a) as [e|] eqn:He; simpl;
        rewrite lookup_insert_eq; simpl; split; (lia || done).
    + destruct (agents st !! id) as [e|] eqn:He; simpl;
        rewrite lookup_insert_ne by done; split; (lia || done).
  - unfold enableObservation.
    destruct (observationCallbacks st !! id) as [r|]; simpl;
      (destruct (agents st !! id) as [e|] eqn:He; simpl; [|split; (lia || done)]);
      (destruct (decide (id = a)) as [->|Hne];
        [rewrite lookup_insert_eq, He; simpl; split; (lia || done)
        |rewrite lookup_insert_ne by done; split; (lia || done)]).
  - unfold runCleanup. case_bool_decide; simpl; [|split; (lia || done)].
    destruct (agents st !! cl_agent c) as [e|] eqn:He; simpl;
      [|split; (lia || done)].
    destruct (decide (cl_agent c = a)) as [Heq|Hne].
    + rewrite <- Heq, lookup_insert_eq, He. simpl. split; (lia || done).
    + rewrite lookup_insert_ne by done. split; (lia || done).
  - rewrite lookup_delete_ne by done. split; (lia || done).
Qed.

Lemma reportTimes_cons op ops :
  reportTimes a (op :: ops) = reportTimes a [op] ++ reportTimes a ops.
Proof.
  unfold reportTimes. simpl.
  by destruct op as [now id name m up| | |]; simpl; [case_bool_decide|..].
Qed.

Lemma runStore_counter ops : ∀ st,
  Forall (λ op, ¬ removes a op) ops →
  counterOf a (runStore ops st)
    = counterOf a st + Z.of_nat (length (reportTimes a ops)) ∧
  lastSeenOf a (runStore ops st)
    = from_option Some (lastSeenOf a st) (last (reportTimes a ops)).
Proof.
  induction ops as [|op ops IH]; intros st Hall.
  - simpl. split; [lia|done].
  - apply Forall_cons in Hall as [Hop Hall].
    destruct (storeStep_counter st op Hop) as [Hc Hl].
    destruct (IH (storeStep st op) Hall) as [IHc IHl].
    unfold runStore in *. simpl foldl.
    rewrite (reportTimes_cons op ops), length_app, last_app, IHc, IHl, Hc, Hl.
    split; [lia|]. by destruct (last (reportTimes a ops)).
Qed.

End ReportCounter.

(** C8.  Start from a store that has no record of agent [a] and run any
    trace of store calls that never removes [a] and holds N ≥ 1 reports
    of [a]: afterwards [a] has a record whose [consecutive_heartbeats] is
    N and whose [last_seen] is the arrival time of the last of those
    reports. *)
Theorem C8_report_counter (a : string) (ops : list StoreOp)
    (st0 : HeartbeatStore) :
  agents st0 !! a = None →
  Forall (λ op, ¬ removes a op) ops →
  (1 ≤ length (reportTimes a ops))%nat →
  ∃ e, agents (runStore ops st0) !! a = Some e ∧
       consecutive_heartbeats e = Z.of_nat (length (reportTimes a ops)) ∧
       last (reportTimes a ops) = Some (last_seen e).
Proof.
  intros Hnone Hall Hlen.
  destruct (runStore_counter a ops st0 Hall) as [Hc Hl].
  unfold counterOf, lastSeenOf in *. rewrite Hnone in Hc, Hl. simpl in Hc, Hl.
  destruct (last (reportTimes a ops)) as [t|] eqn:Hlast.
  - destruct (agents (runStore ops st0) !! a) as [e|]; [|discriminate Hl].
    exists e. simpl in *. split; [done|]. split; [lia|]. congruence.
  - apply last_None in Hlast. rewrite Hlast in Hlen. simpl in Hlen. lia.
Qed.

Lemma C8_report_counter_witness :
  ∃ e, agents (runStore trace8 emptyStore) !! "agent-1" = Some e ∧
       consecutive_heartbeats e = 3 ∧ last_seen e = 61000.
Proof.
  destruct (C8_report_counter "agent-1" trace8 emptyStore) as (e & He & Hc & Hl).
  - reflexivity.
  - repeat constructor; simpl; try tauto. discriminate.
  - simpl. lia.
  - exists e. split; [exact He|]. split; [exact Hc|].
    simpl in Hl. congruence.
Defined.

(** ** Observation *)

(** Subscribing to an agent that has a record sets its flag. *)
Lemma enableObservation_existing a cb st e :
  agents st !! a = Some e →
  agents (enableObservation a cb st).2 !! a = Some (mark_observed true e).
Proof.
  intros He. unfold enableObservation.
  destruct (observationCallbacks st !! a); simpl; rewrite He;
    apply lookup_insert_eq.
Qed.

(** Running the cleanup of the only callback left in its set clears the
    flag and keeps the record. *)
Lemma runCleanup_last c st e :
  agents st !! cl_agent c = Some e →
  set_delete (cl_callback c) (deref (cl_set c) (sets st)) = [] →
  agents (runCleanup c st) !! cl_agent c = Some (mark_observed false e) ∧
  observationCallbacks (runCleanup c st) !! cl_agent c = None.
Proof.
  intros He Hlast. unfold runCleanup.
  assert (deref (cl_set c) (alter (set_delete (cl_callback c)) (cl_set c) (sets st))
          = []) as ->.
  { unfold deref in *. rewrite list_lookup_alter_eq.
    destruct (sets st !! cl_set c); [exact Hlast|reflexivity]. }
  simpl. rewrite He. simpl. split; [apply lookup_insert_eq|apply lookup_delete_eq].
Qed.

(** A report after the first one leaves the flag as it is. *)
Lemma recordHeartbeat_existing_flag now a name m up st e :
  agents st !! a = Some e →
  observedFlag a (recordHeartbeat now a name m up st).1.1
    = Some (observation_mode e).
Proof.
  intros He. unfold observedFlag, recordHeartbeat. rewrite He. simpl.
  by rewrite lookup_insert_eq.
Qed.

(** A first subscription to an agent without a record, followed by the
    first report of that agent: the callback stays registered, and the
    record is created with the flag off. *)
Lemma subscribe_then_first_report now a name m up cb st :
  agents st !! a = None →
  observationCallbacks st !! a = None →
  let st1 := (enableObservation a cb st).2 in
  let st2 := (recordHeartbeat now a name m up st1).1.1 in
  subscribers a st1 = [cb] ∧ subscribers a st2 = [cb] ∧
  observedFlag a st2 = Some false.
Proof.
  intros Ha Hc. unfold enableObservation. rewrite Hc, Ha. simpl.
  unfold recordHeartbeat. simpl. rewrite Ha. simpl.
  unfold subscribers, observedFlag, deref. simpl.
  rewrite !lookup_insert_eq. simpl.
  rewrite list_lookup_alter_eq, lookup_app_r, Nat.sub_diag by done.
  done.
Qed.

(** C7, at the input where it fails.  A client subscribes to "agent-1"
    before that agent has reported; then the first report arrives.  The
    new record is created while callback 0 is registered and is notified,
    yet its [observation_mode] is [false]. *)
Theorem C7_first_report_after_subscribe :
  let st1 := (enableObservation "agent-1" 0%nat emptyStore).2 in
  let out := recordHeartbeat 1000 "agent-1" "worker" IDLE 10 st1 in
  subscribers "agent-1" st1 = [0%nat] ∧
  isNew out.1.2 = true ∧
  subscribers "agent-1" out.1.1 = [0%nat] ∧
  fst <$> out.2 = [0%nat] ∧
  observedFlag "agent-1" out.1.1 = Some false.
Proof. repeat split. Qed.

(** The same subscription made after the first report sets the flag, and
    the cleanup of that only subscriber clears it; the record stays. *)
Example observe_after_report :
  let st1 := (recordHeartbeat 1000 "agent-1" "worker" IDLE 10 emptyStore).1.1 in
  let sub := enableObservation "agent-1" 0%nat st1 in
  observedFlag "agent-1" sub.2 = Some true ∧
  observedFlag "agent-1" (runCleanup sub.1 sub.2) = Some false ∧
  subscribers "agent-1" (runCleanup sub.1 sub.2) = [].
Proof. repeat split. Qed.

(** ** The alert client: deduplication *)

Section Dedup.

Variables (cfg : Config) (net : Network).

(** A duplicate is dropped without any effect. *)
Lemma sendAlert_duplicate clk a c :
  isDuplicate (t_dedup clk) a c = true → sendAlert cfg net clk a c = c.
Proof. intros H. unfold sendAlert. by rewrite H. Qed.

Lemma scheduleQueueProcessing_last c :
  lastAlertByAgent (scheduleQueueProcessing c) = lastAlertByAgent c.
Proof. unfold scheduleQueueProcessing. by destruct (_ || _). Qed.

Lemma queueAlert_last now a c :
  lastAlertByAgent (queueAlert cfg now a c) = lastAlertByAgent c.
Proof.
  unfold queueAlert. destruct (negb _); [|done].
  by rewrite scheduleQueueProcessing_last.
Qed.

(** An alert that is not a duplicate leaves its kind and the time of the
    call as the dedup record of its agent. *)
Lemma sendAlert_records clk a c :
  isDuplicate (t_dedup clk) a c = false →
  lastAlertByAgent (sendAlert cfg net clk a c) !! al_agent_uuid a
    = Some (al_type a, t_record clk).
Proof.
  intros H. unfold sendAlert. rewrite H.
  destruct (noStation cfg); simpl; [apply lookup_insert_eq|].
  destruct (net _); simpl; [apply lookup_insert_eq|].
  rewrite queueAlert_last. apply lookup_insert_eq.
Qed.

(** Two alerts of one kind for one agent with nothing in between: the
    second, less than 60 s after the first, changes nothing. *)
Lemma sendAlert_twice clk1 clk2 a1 a2 c :
  isDuplicate (t_dedup clk1) a1 c = false →
  al_agent_uuid a2 = al_agent_uuid a1 →
  al_type a2 = al_type a1 →
  t_dedup clk2 - t_record clk1 < DEDUP_WINDOW_MS →
  sendAlert cfg net clk2 a2 (sendAlert cfg net clk1 a1 c)
    = sendAlert cfg net clk1 a1 c.
Proof.
  intros Hnew Hid Hty Hwin. apply sendAlert_duplicate.
  unfold isDuplicate. rewrite Hid, (sendAlert_records _ _ _ Hnew), Hty.
  rewrite bool_decide_eq_true_2 by done.
  rewrite andb_true_r. by apply Z.ltb_lt.
Qed.

End Dedup.

(** C1, at the input where it fails.  "agent-1" gets an EMERGENCY_MODE
    alert at 0 ms, a RESTART_DETECTED alert at 1000 ms and a second
    EMERGENCY_MODE alert at 2000 ms.  The second EMERGENCY_MODE alert is
    not a duplicate for the client: it is posted to the station, 2 s
    after the first one, and the client's state changes.  The heartbeat
    route produces such a run from four valid heartbeats of one agent. *)
Theorem C1_interleaved_kind_is_resent :
  let c1 := sendAlert cfgStation netUp (at_ 0) (emergencyAlert 0) newAlertClient in
  let c2 := sendAlert cfgStation netUp (at_ 1000) (restartAlert 1000) c1 in
  let c3 := sendAlert cfgStation netUp (at_ 2000) (emergencyAlert 2000) c2 in
  isDuplicate 2000 (emergencyAlert 2000) c1 = true ∧
  isDuplicate 2000 (emergencyAlert 2000) c2 = false ∧
  posted c3 = [(emergencyAlert 0, true); (restartAlert 1000, true);
               (emergencyAlert 2000, true)] ∧
  c3 ≠ c2 ∧
  (λ x, (al_type x.1, al_agent_uuid x.1, timestamp x.1, x.2))
    <$> posted (postAll cfgStation netUp fourReports
                  (emptyStore, newAlertClient)).2
  = [ (EMERGENCY_MODE, "agent-1", 5000, true);
      (RESTART_DETECTED, "agent-1", 6000, true);
      (EMERGENCY_MODE, "agent-1", 7000, true) ].
Proof.
  repeat split. intros Heq. apply (f_equal (λ c, length (posted c))) in Heq.
  discriminate Heq.
Qed.

(** ** The alert client: no station configured *)

(** C2 as stated fails: without a station, a fresh alert is not queued. *)
Lemma C2_no_station_counterexample :
  noStation cfgLogOnly = true ∧
  isDuplicate 0 (emergencyAlert 0) newAlertClient = false ∧
  queue (sendAlert cfgLogOnly netDown (at_ 0) (emergencyAlert 0) newAlertClient)
    = [] ∧
  ¬ ∃ q, alert q = emergencyAlert 0 ∧
         q ∈ queue (sendAlert cfgLogOnly netDown (at_ 0) (emergencyAlert 0)
                      newAlertClient).
Proof.
  repeat split. intros (q & _ & Hin). by apply elem_of_nil in Hin.
Qed.

(** C2, amended.  A call that is not a duplicate, made while the station
    URL or key is empty, writes the dedup record and nothing else: no
    request is made, the retry queue and the timers stay as they were. *)
Theorem C2_no_station_only_logs (cfg : Config) (net : Network)
    (clk : SendClock) (a : ClusterAlert) (c : AlertClient) :
  noStation cfg = true →
  isDuplicate (t_dedup clk) a c = false →
  sendAlert cfg net clk a c = set_lastAlert c a (t_record clk) ∧
  queue (sendAlert cfg net clk a c) = queue c ∧
  posted (sendAlert cfg net clk a c) = posted c ∧
  scheduled (sendAlert cfg net clk a c) = scheduled c.
Proof.
  intros Hno Hdup. unfold sendAlert. rewrite Hdup, Hno. done.
Qed.

Lemma C2_no_station_only_logs_witness :
  sendAlert cfgLogOnly netDown (at_ 0) (emergencyAlert 0) newAlertClient
    = set_lastAlert newAlertClient (emergencyAlert 0) 0 ∧
  queue (sendAlert cfgLogOnly netDown (at_ 0) (emergencyAlert 0) newAlertClient)
    = [].
Proof.
  destruct (C2_no_station_only_logs cfgLogOnly netDown (at_ 0)
              (emergencyAlert 0) newAlertClient) as (H1 & H2 & _).
  - reflexivity.
  - reflexivity.
  - split; [exact H1|exact H2].
Defined.

(** ** The alert client: the retry queue *)

Section Queue.

Variable cfg : Config.

Lemma scheduleQueueProcessing_queue c :
  queue (scheduleQueueProcessing c) = queue c.
Proof. unfold scheduleQueueProcessing. by destruct (_ || _). Qed.

(** What [queueAlert] does to the queue, in both cases. *)
Lemma queueAlert_queue now a c :
  queue (queueAlert cfg now a c) =
    (if Z.of_nat (length (queue c)) >=? alertQueueMaxSize cfg
     then tail (queue c) else queue c)
    ++ [{| alert := a; queuedAt := now; attempts := 1 |}].
Proof.
  unfold queueAlert. destruct (negb _); [|done].
  by rewrite scheduleQueueProcessing_queue.
Qed.

Lemma queueAlert_bounded now a c :
  1 ≤ alertQueueMaxSize cfg →
  Z.of_nat (length (queue c)) ≤ alertQueueMaxSize cfg →
  Z.of_nat (length (queue (queueAlert cfg now a c))) ≤ alertQueueMaxSize cfg.
Proof.
  intros Hmax Hlen. rewrite queueAlert_queue, length_app. simpl.
  destruct (Z.geb_spec (Z.of_nat (length (queue c))) (alertQueueMaxSize cfg)).
  - destruct (queue c); simpl in *; lia.
  - lia.
Qed.

Lemma enqueueAll_bounded l : ∀ c,
  1 ≤ alertQueueMaxSize cfg →
  Z.of_nat (length (queue c)) ≤ alertQueueMaxSize cfg →
  Z.of_nat (length (queue (enqueueAll cfg l c))) ≤ alertQueueMaxSize cfg.
Proof.
  induction l as [|[now a] l IH]; intros c Hmax Hlen; [done|].
  apply IH; [done|]. by apply queueAlert_bounded.
Qed.

End Queue.

(** ** The alert client: draining and backoff *)

Section Drain.

Variables (cfg : Config) (net : Network).

(** The loop touches nothing of the client but the log of requests. *)
Lemma drain_frame now items : ∀ c,
  let out := drain cfg net now items c in
  queue out.2 = queue c ∧ isProcessing out.2 = isProcessing c ∧
  lastAlertByAgent out.2 = lastAlertByAgent c ∧ scheduled out.2 = scheduled c.
Proof.
  induction items as [|item rest IH]; intros c; simpl; [done|].
  destruct (_ >? _); [apply IH|].
  destruct (net _).
  - exact (IH _).
  - match goal with
    | |- context [drain _ _ _ _ ?c'] => specialize (IH c')
    end.
    simpl in IH. by destruct (drain _ _ _ _ _).
Qed.

(** Every entry the loop keeps is an entry it was given, tried once more. *)
Lemma drain_attempts now items : ∀ c q',
  q' ∈ (drain cfg net now items c).1 →
  ∃ q, q ∈ items ∧ alert q' = alert q ∧ queuedAt q' = queuedAt q ∧
       attempts q' = attempts q + 1.
Proof.
  induction items as [|item rest IH]; intros c q'; simpl.
  - by intros ?%elem_of_nil.
  - destruct (_ >? _).
    { intros (q & ? & ?)%IH. exists q. split; [by right|done]. }
    destruct (net _).
    { intros (q & ? & ?)%IH. exists q. split; [by right|done]. }
    match goal with
    | |- context [drain _ _ _ _ ?c'] => specialize (IH c' q')
    end.
    destruct (drain _ _ _ _ _) as [remaining c2]. simpl in *.
    intros [->|Hin]%elem_of_cons.
    + exists item. split; [by left|done].
    + apply IH in Hin as (q & ? & ?). exists q. split; [by right|done].
Qed.

(** [processQueue] never registers a timer: while it runs, [isProcessing]
    is [true], and [scheduleQueueProcessing] returns at once. *)
Lemma processQueue_scheduled now c :
  scheduled (processQueue cfg net now c) = scheduled c.
Proof.
  unfold processQueue. destruct (_ || _); [done|].
  pose proof (drain_frame now (queue (set_isProcessing c true))
                (set_isProcessing c true)) as (_ & Hp & _ & Hs).
  destruct (drain _ _ _ _ _) as [remaining c2]. simpl in *.
  unfold scheduleQueueProcessing. simpl. rewrite Hp. simpl.
  by destruct (bool_decide _).
Qed.

Lemma processQueue_queue now c q' :
  q' ∈ queue (processQueue cfg net now c) →
  q' ∈ queue c ∨
  ∃ q, q ∈ queue c ∧ alert q' = alert q ∧ queuedAt q' = queuedAt q ∧
       attempts q' = attempts q + 1.
Proof.
  unfold processQueue. destruct (_ || _); [by left|].
  pose proof (drain_frame now (queue (set_isProcessing c true))
                (set_isProcessing c true)) as (_ & Hp & _).
  pose proof (drain_attempts now (queue (set_isProcessing c true))
                (set_isProcessing c true) q') as Hd.
  destruct (drain _ _ _ _ _) as [remaining c2]. simpl in *.
  unfold scheduleQueueProcessing. simpl. rewrite Hp. simpl.
  destruct (bool_decide _); simpl; intros Hin; right; by apply Hd.
Qed.

(** When [scheduleQueueProcessing] does register a timer, its delay is
    [min(5000 * 2^attempts, 60000)] for the attempts of the head entry. *)
Lemma scheduleQueueProcessing_delay c item rest :
  isProcessing c = false →
  queue c = item :: rest →
  scheduled (scheduleQueueProcessing c)
    = scheduled c ++ [Z.min (5000 * 2 ^ attempts item) 60000].
Proof.
  intros Hp Hq. unfold scheduleQueueProcessing, backoffDelay.
  rewrite Hp, Hq. simpl.
  destruct (Z.eqb_spec (attempts item) 0) as [->|]; done.
Qed.

Lemma backoffDelay_bounds item rest :
  1 ≤ attempts item →
  10000 ≤ backoffDelay (item :: rest) ≤ 60000.
Proof.
  intros Hge. unfold backoffDelay. simpl.
  destruct (Z.eqb_spec (attempts item) 0); [lia|].
  assert (2 ^ 1 ≤ 2 ^ attempts item) by (apply Z.pow_le_mono_r; lia).
  lia.
Qed.

(** The loop keeps no more entries than it was given. *)
Lemma drain_length now items : ∀ c,
  (length (drain cfg net now items c).1 ≤ length items)%nat.
Proof.
  induction items as [|item rest IH]; intros c; simpl; [done|].
  destruct (_ >? _); [by apply Nat.le_le_succ_r|].
  destruct (net _); [by apply Nat.le_le_succ_r|].
  match goal with
  | |- context [drain _ _ _ _ ?c'] => specialize (IH c')
  end.
  destruct (drain _ _ _ _ _). simpl in *. lia.
Qed.

Lemma processQueue_length now c :
  (length (queue (processQueue cfg net now c)) ≤ length (queue c))%nat.
Proof.
  unfold processQueue. destruct (_ || _); [done|].
  pose proof (drain_length now (queue (set_isProcessing c true))
                (set_isProcessing c true)) as Hlen.
  destruct (drain _ _ _ _ _) as [remaining c2]. simpl in *.
  destruct (bool_decide _); simpl; [|done].
  by rewrite scheduleQueueProcessing_queue.
Qed.

Lemma clientStep_bounded c op :
  1 ≤ alertQueueMaxSize cfg →
  Z.of_nat (length (queue c)) ≤ alertQueueMaxSize cfg →
  Z.of_nat (length (queue (clientStep cfg net c op))) ≤ alertQueueMaxSize cfg.
Proof.
  intros Hmax Hlen. destruct op as [clk a|now]; simpl.
  - unfold sendAlert. destruct (isDuplicate _ _ _); [done|].
    destruct (noStation cfg); [done|]. simpl.
    destruct (net _); [done|]. by apply queueAlert_bounded.
  - pose proof (processQueue_length now c). lia.
Qed.

Lemma runClient_bounded ops : ∀ c,
  1 ≤ alertQueueMaxSize cfg →
  Z.of_nat (length (queue c)) ≤ alertQueueMaxSize cfg →
  Z.of_nat (length (queue (runClient cfg net ops c))) ≤ alertQueueMaxSize cfg.
Proof.
  induction ops as [|op ops IH]; intros c Hmax Hlen; [done|].
  apply IH; [done|]. by apply clientStep_bounded.
Qed.

End Drain.

(** C6.  With a maximum of at least 1 and an empty queue to start from,
    the queue never holds more than the maximum: after any run of
    [queueAlert] calls, and after any run of [sendAlert] and
    [processQueue] calls, which enqueue through [queueAlert] only.  A
    [queueAlert] made while the queue is at or above the maximum drops
    the head and then appends the new entry at the tail. *)
Theorem C6_queue_bounded (cfg : Config) (l : list (Z * ClusterAlert)) :
  1 ≤ alertQueueMaxSize cfg →
  Z.of_nat (length (queue (enqueueAll cfg l newAlertClient)))
    ≤ alertQueueMaxSize cfg ∧
  (∀ net ops,
     Z.of_nat (length (queue (runClient cfg net ops newAlertClient)))
       ≤ alertQueueMaxSize cfg) ∧
  ∀ now a c,
    alertQueueMaxSize cfg ≤ Z.of_nat (length (queue c)) →
    queue (queueAlert cfg now a c)
      = tail (queue c) ++ [{| alert := a; queuedAt := now; attempts := 1 |}].
Proof.
  intros Hmax. split; [|split].
  - apply enqueueAll_bounded; [done|]. simpl. lia.
  - intros net ops. apply runClient_bounded; [done|]. simpl. lia.
  - intros now a c Hfull. rewrite queueAlert_queue.
    destruct (Z.geb_spec (Z.of_nat (length (queue c))) (alertQueueMaxSize cfg));
      [done|lia].
Qed.

Lemma C6_queue_bounded_witness :
  Z.of_nat (length (queue (enqueueAll cfgSmall threeAlerts newAlertClient))) ≤ 2 ∧
  queue (enqueueAll cfgSmall threeAlerts newAlertClient)
    = [ {| alert := restartAlert 1000; queuedAt := 1000; attempts := 1 |};
        {| alert := emergencyAlert 2000; queuedAt := 2000; attempts := 1 |} ].
Proof.
  destruct (C6_queue_bounded cfgSmall threeAlerts) as (Hlen & _ & Hevict).
  - simpl. lia.
  - split; [exact Hlen|].
    change (enqueueAll cfgSmall threeAlerts newAlertClient)
      with (queueAlert cfgSmall 2000 (emergencyAlert 2000)
              (enqueueAll cfgSmall
                 [(0, emergencyAlert 0); (1000, restartAlert 1000)]
                 newAlertClient)).
    rewrite Hevict; [reflexivity|]. simpl. lia.
Defined.

(** C9, at the input where it fails.  One entry is queued (its timer of
    10000 ms is the one [queueAlert] registered).  The drain pass at
    10000 ms fails to deliver it and ends with the entry still queued, at
    2 attempts; the claimed timer of min(5000 * 2^2, 60000) = 20000 ms is
    not registered: the pass leaves the list of timers as it found it. *)
Theorem C9_drain_pass_schedules_nothing :
  let c := processQueue cfgStation netDown 10000 queuedOnce in
  scheduled queuedOnce = [10000] ∧
  queue c = [{| alert := emergencyAlert 0; queuedAt := 0; attempts := 2 |}] ∧
  isProcessing c = false ∧
  backoffDelay (queue c) = 20000 ∧
  scheduled c = [10000].
Proof. repeat split. Qed.

(** ** The alert client: attempts are at least 1 *)

Section Attempts.

Variables (cfg : Config) (net : Network).

Lemma scheduleQueueProcessing_inv c :
  clientInv c → clientInv (scheduleQueueProcessing c).
Proof.
  intros [Hq Hs]. unfold scheduleQueueProcessing.
  destruct (isProcessing c); simpl; [done|].
  case_bool_decide as Hlen; [done|].
  split; simpl; [done|].
  apply Forall_app. split; [done|]. apply Forall_singleton.
  destruct (queue c) as [|item rest]; [done|].
  apply backoffDelay_bounds. by apply Forall_cons in Hq as [? _].
Qed.

Lemma queueAlert_inv now a c : clientInv c → clientInv (queueAlert cfg now a c).
Proof.
  intros [Hq Hs]. unfold queueAlert.
  set (c1 := set_queue c _).
  assert (clientInv c1) as Hinv.
  { split; [|done]. simpl. apply Forall_app. split.
    - destruct (_ >=? _); [|done]. destruct (queue c); [done|].
      by apply Forall_cons in Hq as [_ ?].
    - apply Forall_singleton. simpl. lia. }
  destruct (negb _); [by apply scheduleQueueProcessing_inv|done].
Qed.

Lemma sendAlert_inv clk a c : clientInv c → clientInv (sendAlert cfg net clk a c).
Proof.
  intros Hinv. unfold sendAlert.
  destruct (isDuplicate _ _ _); [done|].
  destruct (noStation cfg); [done|]. simpl.
  destruct (net _); [done|]. by apply queueAlert_inv.
Qed.

Lemma processQueue_inv now c :
  clientInv c → clientInv (processQueue cfg net now c).
Proof.
  intros [Hq Hs]. split; [|by rewrite processQueue_scheduled].
  apply Forall_forall. intros q' [Hin|(q & Hin & _ & _ & Hat)]%processQueue_queue.
  - by apply (proj1 (Forall_forall _ _) Hq).
  - apply (proj1 (Forall_forall _ _) Hq) in Hin. lia.
Qed.

Lemma clientStep_inv c op : clientInv c → clientInv (clientStep cfg net c op).
Proof.
  destruct op; simpl; [apply sendAlert_inv|apply processQueue_inv].
Qed.

Lemma runClient_inv ops : ∀ c, clientInv c → clientInv (runClient cfg net ops c).
Proof.
  induction ops as [|op ops IH]; intros c Hinv; [done|].
  apply IH. by apply clientStep_inv.
Qed.

Lemma laterOf_refl l : Forall2 laterOf l l.
Proof.
  induction l as [|q l IH]; constructor; [|done].
  repeat split; lia.
Qed.

Lemma laterOf_retried l : Forall2 laterOf l (retried <$> l).
Proof.
  induction l as [|q l IH]; constructor; [|done].
  repeat split; simpl; lia.
Qed.

(** The entries a drain pass keeps are entries of the queue it started
    from, in their order, each with one more attempt. *)
Lemma drain_retried now items : ∀ c,
  ∃ olds, olds `sublist_of` items ∧
          (drain cfg net now items c).1 = retried <$> olds.
Proof.
  induction items as [|item rest IH]; intros c; simpl.
  - exists []. split; [constructor|done].
  - destruct (_ >? _).
    + destruct (IH c) as (olds & Hsub & Heq).
      exists olds. split; [by constructor|done].
    + destruct (net _).
      * match goal with |- context [drain _ _ _ _ ?c'] =>
          destruct (IH c') as (olds & Hsub & Heq) end.
        exists olds. split; [by constructor|done].
      * match goal with |- context [drain _ _ _ _ ?c'] =>
          destruct (IH c') as (olds & Hsub & Heq);
          destruct (drain cfg net now rest c') as [remaining c2] end.
        simpl in *. exists (item :: olds). split; [by constructor|].
        rewrite Heq. done.
Qed.

Lemma processQueue_retried now c :
  queue (processQueue cfg net now c) = queue c ∨
  ∃ olds, olds `sublist_of` queue c ∧
          queue (processQueue cfg net now c) = retried <$> olds.
Proof.
  unfold processQueue. destruct (_ || _); [by left|]. right.
  destruct (drain_retried now (queue (set_isProcessing c true))
              (set_isProcessing c true)) as (olds & Hsub & Heq).
  destruct (drain cfg net now _ _) as [remaining c2]. simpl in *.
  exists olds. split; [done|]. subst remaining.
  case_bool_decide; simpl; [|done].
  by rewrite scheduleQueueProcessing_queue.
Qed.

(** What one call does to the queue: the entries it keeps are entries
    that were there before, in their order, with at least the attempts
    they had; the only entry it can add is the alert of a [sendAlert]
    call, at the tail and at 1 attempt. *)
Lemma clientStep_attempts c op :
  ∃ olds kept fresh,
    queue (clientStep cfg net c op) = kept ++ fresh ∧
    olds `sublist_of` queue c ∧
    Forall2 laterOf olds kept ∧
    (fresh = [] ∨
     ∃ clk a, op = OpSend clk a ∧
       fresh = [{| alert := a; queuedAt := t_queue clk; attempts := 1 |}]).
Proof.
  assert (∃ olds kept fresh,
            queue c = kept ++ fresh ∧ olds `sublist_of` queue c ∧
            Forall2 laterOf olds kept ∧
            (fresh = [] ∨
             ∃ clk a, op = OpSend clk a ∧
               fresh = [{| alert := a; queuedAt := t_queue clk;
                           attempts := 1 |}])) as Hsame.
  { exists (queue c), (queue c), []. rewrite app_nil_r.
    repeat split; [done|apply laterOf_refl|by left]. }
  destruct op as [clk a|now]; simpl.
  - unfold sendAlert.
    destruct (isDuplicate _ _ _); [done|].
    destruct (noStation cfg); [done|]. simpl.
    destruct (net _); [done|].
    rewrite queueAlert_queue. simpl.
    eexists _, _, _. split; [reflexivity|].
    split; [|split; [apply laterOf_refl|right; by exists clk, a]].
    destruct (_ >=? _); [|done].
    destruct (queue c); [done|]. by constructor.
  - destruct (processQueue_retried now c) as [Heq|(olds & Hsub & Heq)].
    + by rewrite Heq.
    + exists olds, (retried <$> olds), []. rewrite app_nil_r.
      repeat split; [done|done|apply laterOf_retried|by left].
Qed.

End Attempts.

(** C10.  In every state the client reaches from its initial state by
    [sendAlert] and [processQueue] calls, each queued entry has
    [attempts] ≥ 1.  The next call only raises attempts: the queue after
    it is a subsequence of the entries it had, in their order, each with
    the same alert and [queuedAt] and with at least the attempts it had,
    followed by at most one new entry, which is the alert of that
    [sendAlert] call at exactly 1 attempt.  So the backoff delay read
    from the head of a non-empty queue is at least 10000 ms, and every
    timer ever registered was set to at least 10000 ms, never to the
    5000 ms base. *)
Theorem C10_attempts_at_least_one (cfg : Config) (net : Network)
    (ops : list ClientOp) :
  let c := runClient cfg net ops newAlertClient in
  Forall (λ q, 1 ≤ attempts q) (queue c) ∧
  (∀ op, ∃ olds kept fresh,
     queue (clientStep cfg net c op) = kept ++ fresh ∧
     olds `sublist_of` queue c ∧
     Forall2 laterOf olds kept ∧
     (fresh = [] ∨
      ∃ clk a, op = OpSend clk a ∧
        fresh = [{| alert := a; queuedAt := t_queue clk; attempts := 1 |}])) ∧
  (queue c ≠ [] → 10000 ≤ backoffDelay (queue c)) ∧
  Forall (λ d, 10000 ≤ d ∧ d ≠ 5000) (scheduled c).
Proof.
  intros c.
  assert (clientInv c) as [Hq Hs].
  { apply runClient_inv. split; constructor. }
  split; [done|]. split; [apply clientStep_attempts|]. split.
  - destruct (queue c) as [|item rest]; [done|]. intros _.
    apply backoffDelay_bounds. by apply Forall_cons in Hq as [? _].
  - eapply Forall_impl; [exact Hs|]. simpl. lia.
Qed.

Lemma C10_attempts_at_least_one_witness :
  let c := runClient cfgStation netDown trace10 newAlertClient in
  attempts <$> queue c = [3; 2] ∧
  scheduled c = [10000; 20000] ∧
  10000 ≤ backoffDelay (queue c).
Proof.
  destruct (C10_attempts_at_least_one cfgStation netDown trace10)
    as (_ & _ & Hd & _).
  split; [reflexivity|]. split; [reflexivity|].
  apply Hd. discriminate.
Defined.

(** ** The zombie detector *)

Section StoreWf.

Lemma emptyStore_wf : storeWf emptyStore.
Proof. apply map_Forall_empty. Qed.

Lemma storeStep_wf st op : storeWf st → storeWf (storeStep st op).
Proof.
  unfold storeWf. intros Hwf.
  destruct op as [now id name m up|id cb|c|id]; simpl.
  - unfold recordHeartbeat. destruct (agents st !! id) as [e|] eqn:He; simpl;
      apply map_Forall_insert_2; try done. by apply (Hwf id e).
  - unfold enableObservation.
    destruct (observationCallbacks st !! id); simpl;
      (destruct (agents st !! id) as [e|] eqn:He; simpl; [|done]);
      apply map_Forall_insert_2; try done; by apply (Hwf id e).
  - unfold runCleanup. case_bool_decide; simpl; [|done].
    destruct (agents st !! cl_agent c) as [e|] eqn:He; [|done].
    apply map_Forall_insert_2; [|done]. by apply (Hwf _ e).
  - by apply map_Forall_delete.
Qed.

Lemma runStore_wf ops : ∀ st, storeWf st → storeWf (runStore ops st).
Proof.
  induction ops as [|op ops IH]; intros st Hwf; [done|].
  apply IH. by apply storeStep_wf.
Qed.

End StoreWf.

Section Scan.

Variables (cfg : Config) (net : Network) (a : string).

Lemma deathAlertsFor_snoc l x :
  deathAlertsFor a (l ++ [x]) =
    (deathAlertsFor a l +
     if bool_decide (al_type x = AGENT_DEATH ∧ al_agent_uuid x = a)
     then 1 else 0)%nat.
Proof.
  unfold deathAlertsFor. rewrite filter_app, length_app. f_equal.
  rewrite filter_cons, filter_nil.
  destruct (decide _) as [H|H].
  - by rewrite bool_decide_eq_true_2.
  - by rewrite bool_decide_eq_false_2.
Qed.

(** One turn of the first loop of [check], seen from agent [a]. *)
Lemma alertStep_alerted clk d e :
  a ∈ alertedAgents (alertStep cfg net clk d e) ↔
  a ∈ alertedAgents d ∨ a = agent_uuid e.
Proof.
  unfold alertStep. case_bool_decide as Hin; simpl.
  - split; [by left|]. by intros [?| ->].
  - unfold alertedAgents. simpl.
    rewrite elem_of_union, elem_of_singleton. tauto.
Qed.

Lemma alertStep_dispatched clk d e :
  deathAlertsFor a (dispatched (alertStep cfg net clk d e)) =
    (deathAlertsFor a (dispatched d) +
     if bool_decide (agent_uuid e ∈ alertedAgents d) then 0
     else if bool_decide (a = agent_uuid e) then 1 else 0)%nat.
Proof.
  unfold alertStep. case_bool_decide as Hin; simpl; [lia|].
  unfold dispatched. simpl. rewrite deathAlertsFor_snoc. simpl. f_equal.
  destruct (decide (a = agent_uuid e)) as [->|Hne].
  - by rewrite !bool_decide_eq_true_2.
  - rewrite (bool_decide_eq_false_2 (a = _)) by done.
    rewrite bool_decide_eq_false_2; [done|]. intros [_ ?]. by apply Hne.
Qed.

(** The first loop of [check], seen from agent [a]. *)
Lemma alertStep_fold clk l : ∀ d,
  let d' := foldl (alertStep cfg net clk) d l in
  (a ∈ alertedAgents d' ↔ a ∈ alertedAgents d ∨ a ∈ agent_uuid <$> l) ∧
  deathAlertsFor a (dispatched d') =
    (deathAlertsFor a (dispatched d) +
     if bool_decide (a ∈ alertedAgents d) then 0
     else if bool_decide (a ∈ agent_uuid <$> l) then 1 else 0)%nat.
Proof.
  induction l as [|e l IH]; intros d; simpl.
  - split.
    + split; [by left|]. intros [?|Hnil]; [done|]. by apply elem_of_nil in Hnil.
    + repeat case_bool_decide; lia.
  - destruct (IH (alertStep cfg net clk d e)) as [IHa IHc].
    pose proof (alertStep_alerted clk d e) as Hal.
    rewrite IHa, IHc, alertStep_dispatched. clear IH IHa IHc. split.
    + rewrite Hal, elem_of_cons. tauto.
    + repeat case_bool_decide; subst;
        rewrite ?elem_of_cons in *; try lia; exfalso; intuition congruence.
Qed.

(** The second loop of [check], seen from agent [a]. *)
Lemma recoverStep_fold l : ∀ alerted,
  a ∈ foldl recoverStep alerted l ↔
  a ∈ alerted ∧ ¬ ∃ s, s ∈ l ∧ st_agent_uuid s = a ∧ healthy s = true.
Proof.
  induction l as [|s l IH]; intros alerted; simpl.
  - split; [|tauto]. intros Hin. split; [done|]. intros (s & Hs & _).
    by apply elem_of_nil in Hs.
  - rewrite IH. unfold recoverStep.
    destruct (healthy s) eqn:Hh; simpl; [case_bool_decide as Hin|].
    + rewrite elem_of_difference, not_elem_of_singleton. split.
      * intros [[Ha Hne] Hno]. split; [done|].
        intros (s' & [->|Hs']%elem_of_cons & Hid & Hh'); [done|].
        apply Hno. by exists s'.
      * intros [Ha Hno]. repeat split; [done|..].
        -- intros ->. apply Hno. exists s. split; [by left|done].
        -- intros (s' & Hs' & ?). apply Hno. exists s'. split; [by right|done].
    + split.
      * intros [Ha Hno]. split; [done|].
        intros (s' & [->|Hs']%elem_of_cons & Hid & Hh'); [by subst a|].
        apply Hno. by exists s'.
      * intros [Ha Hno]. split; [done|].
        intros (s' & Hs' & ?). apply Hno. exists s'. split; [by right|done].
    + split.
      * intros [Ha Hno]. split; [done|].
        intros (s' & [->|Hs']%elem_of_cons & Hid & Hh'); [congruence|].
        apply Hno. by exists s'.
      * intros [Ha Hno]. split; [done|].
        intros (s' & Hs' & ?). apply Hno. exists s'. split; [by right|done].
Qed.

Lemma unhealthy_mentions now st e :
  storeWf st → agents st !! a = Some e →
  a ∈ agent_uuid <$> getUnhealthyAgents now st ↔ isHealthy e now = false.
Proof.
  intros Hwf He. rewrite list_elem_of_fmap. split.
  - intros (e' & -> & [[k Hk] Hu]%elem_of_getUnhealthyAgents).
    rewrite (Hwf k e' Hk) in He. congruence.
  - intros Hu. exists e. split; [symmetry; by apply (Hwf a e)|].
    apply elem_of_getUnhealthyAgents. split; [by exists a|done].
Qed.

Lemma healthy_status clock st e :
  storeWf st → agents st !! a = Some e →
  (∃ s, s ∈ getAllAgents clock st ∧ st_agent_uuid s = a ∧ healthy s = true)
  ↔ isHealthy e (clock a) = true.
Proof.
  intros Hwf He. unfold getAllAgents. split.
  - intros (s & (e' & -> & [k Hk]%elem_of_entries)%list_elem_of_fmap & Hid & Hh).
    simpl in *. rewrite <- (Hwf k e' Hk) in Hk. rewrite Hid in *. congruence.
  - intros Hh. exists (entryToStatus (clock a) e).
    pose proof (Hwf a e He) as Hid. simpl in Hid.
    split; [|split; [done|done]].
    apply list_elem_of_fmap. exists e. rewrite Hid. split; [done|].
    apply elem_of_entries. by exists a.
Qed.

(** One [check] that finds [a] unhealthy: [a] is alerted for unless it is
    already in the set, and it is in the set afterwards. *)
Lemma check_unhealthy s d :
  scanOk s → unhealthyIn a s →
  let d' := check cfg net s.1 s.2 d in
  a ∈ alertedAgents d' ∧
  deathAlertsFor a (dispatched d') =
    (deathAlertsFor a (dispatched d) +
     if bool_decide (a ∈ alertedAgents d) then 0 else 1)%nat.
Proof.
  intros [Hclk Hwf] (e & He & Hu). unfold check.
  destruct (alertStep_fold s.1 (getUnhealthyAgents (t_unhealthy s.1) s.2) d)
    as [Ha Hc].
  pose proof (proj2 (unhealthy_mentions _ _ _ Hwf He) Hu) as Hm.
  unfold alertedAgents at 1, dispatched at 1. simpl. split.
  - apply recoverStep_fold. split; [apply Ha; by right|].
    intros Hs. apply (healthy_status _ _ _ Hwf He) in Hs.
    pose proof (isHealthy_mono e _ _ (Hclk a) Hu). congruence.
  - rewrite Hc. by rewrite (bool_decide_eq_true_2 _ Hm).
Qed.

(** One [check] that finds [a] healthy: no alert for [a], and [a] is not
    in the set afterwards. *)
Lemma check_healthy s d :
  scanOk s → healthyIn a s →
  let d' := check cfg net s.1 s.2 d in
  (a ∉ alertedAgents d') ∧
  deathAlertsFor a (dispatched d') = deathAlertsFor a (dispatched d).
Proof.
  intros [Hclk Hwf] (e & He & Hh). unfold check.
  destruct (alertStep_fold s.1 (getUnhealthyAgents (t_unhealthy s.1) s.2) d)
    as [Ha Hc].
  assert (a ∉ agent_uuid <$> getUnhealthyAgents (t_unhealthy s.1) s.2) as Hm.
  { intros Hu. apply (unhealthy_mentions _ _ _ Hwf He) in Hu.
    pose proof (isHealthy_mono e _ _ (Hclk a) Hu). congruence. }
  unfold alertedAgents at 1, dispatched at 1. simpl. split.
  - intros [_ Hno]%recoverStep_fold. apply Hno.
    by apply (healthy_status _ _ _ Hwf He).
  - rewrite Hc. rewrite (bool_decide_eq_false_2 _ Hm).
    case_bool_decide; lia.
Qed.

(** A run of scans that all find [a] unhealthy. *)
Lemma runScans_unhealthy scans : ∀ d,
  scans ≠ [] →
  Forall (λ s, scanOk s ∧ unhealthyIn a s) scans →
  let d' := runScans cfg net scans d in
  a ∈ alertedAgents d' ∧
  deathAlertsFor a (dispatched d') =
    (deathAlertsFor a (dispatched d) +
     if bool_decide (a ∈ alertedAgents d) then 0 else 1)%nat.
Proof.
  induction scans as [|s scans IH]; intros d Hne Hall; [done|].
  apply Forall_cons in Hall as [[Hok Hu] Hall].
  destruct (check_unhealthy s d Hok Hu) as [Ha Hc].
  destruct scans as [|s' scans'].
  - simpl. done.
  - destruct (IH (check cfg net s.1 s.2 d)) as [IHa IHc]; [done|done|].
    unfold runScans in *. simpl foldl in *. split; [done|].
    rewrite IHc, Hc. rewrite (bool_decide_eq_true_2 _ Ha). lia.
Qed.

End Scan.

Section ScanClient.

Variables (cfg : Config) (net : Network).

Lemma scheduleQueueProcessing_posted c :
  posted (scheduleQueueProcessing c) = posted c.
Proof. unfold scheduleQueueProcessing. by destruct (_ || _). Qed.

Lemma queueAlert_posted now x c : posted (queueAlert cfg now x c) = posted c.
Proof.
  unfold queueAlert. destruct (negb _); [|done].
  by rewrite scheduleQueueProcessing_posted.
Qed.

Lemma untouched_refl a c : untouched a c c.
Proof. by split. Qed.

Lemma untouched_trans a c1 c2 c3 :
  untouched a c1 c2 → untouched a c2 c3 → untouched a c1 c3.
Proof. intros [H1 H2] [H3 H4]. split; congruence. Qed.

(** An alert of another agent leaves the record and the requests of [a]
    as they are. *)
Lemma sendAlert_other a clk x c :
  al_agent_uuid x ≠ a → untouched a c (sendAlert cfg net clk x c).
Proof.
  intros Hne. unfold sendAlert.
  destruct (isDuplicate _ _ _); [apply untouched_refl|].
  assert (dedupOf a (set_lastAlert c x (t_record clk)) = dedupOf a c) as Hrec.
  { unfold dedupOf. simpl. by apply lookup_insert_ne. }
  destruct (noStation cfg); [by split|]. simpl.
  assert (filter (λ p : ClusterAlert * bool, al_agent_uuid p.1 = a)
            (posted c ++ [(x, net (length (posted c)))])
          = requestsFor a c) as Hreq.
  { rewrite filter_app, filter_cons, filter_nil. simpl.
    rewrite decide_False by done. apply app_nil_r. }
  destruct (net _); split; unfold dedupOf, requestsFor in *; simpl;
    rewrite ?queueAlert_last, ?queueAlert_posted; simpl; done.
Qed.

(** What [sendAlert] does with an alert, seen from the agent of the
    alert. *)
Lemma sendAlert_outcome clk x c :
  clientOutcome cfg clk x c (sendAlert cfg net clk x c).
Proof.
  unfold clientOutcome.
  destruct (isDuplicate (t_dedup clk) x c) eqn:Hdup.
  - rewrite sendAlert_duplicate by done. by split.
  - split; [by apply sendAlert_records|].
    unfold sendAlert. rewrite Hdup.
    destruct (noStation cfg); simpl.
    + exists true. by rewrite app_nil_r.
    + exists (net (length (posted c))).
      assert (filter (λ p : ClusterAlert * bool,
                        al_agent_uuid p.1 = al_agent_uuid x)
                (posted c ++ [(x, net (length (posted c)))])
              = requestsFor (al_agent_uuid x) c
                ++ [(x, net (length (posted c)))]) as Hreq.
      { rewrite filter_app, filter_cons, filter_nil. simpl.
        by rewrite decide_True. }
      destruct (net _); unfold requestsFor; simpl;
        rewrite ?queueAlert_posted; simpl; done.
Qed.

Lemma isDuplicate_untouched now x c c' :
  untouched (al_agent_uuid x) c c' → isDuplicate now x c' = isDuplicate now x c.
Proof. intros [Hrec _]. unfold isDuplicate, dedupOf in *. by rewrite Hrec. Qed.

Lemma clientOutcome_before clk x c0 c c' :
  untouched (al_agent_uuid x) c0 c →
  clientOutcome cfg clk x c c' → clientOutcome cfg clk x c0 c'.
Proof.
  intros Hun. unfold clientOutcome.
  rewrite (isDuplicate_untouched _ _ _ _ Hun).
  destruct (isDuplicate _ _ _).
  - by apply untouched_trans.
  - destruct Hun as [_ Hreq]. by rewrite Hreq.
Qed.

Lemma clientOutcome_after clk x c c' c'' :
  clientOutcome cfg clk x c c' →
  untouched (al_agent_uuid x) c' c'' → clientOutcome cfg clk x c c''.
Proof.
  intros Hout Hun. unfold clientOutcome in *.
  destruct (isDuplicate _ _ _).
  - clear -Hout Hun. destruct Hout, Hun. split; congruence.
  - destruct Hun as [Hrec Hreq]. by rewrite Hrec, Hreq.
Qed.

End ScanClient.

Section ScanOutcome.

Variables (cfg : Config) (net : Network) (a : string).

(** The first loop of [check] leaves the client alone for an agent that
    is in the suppression set or is not in the list. *)
Lemma alertStep_fold_untouched clk l : ∀ d,
  a ∈ alertedAgents d ∨ a ∉ agent_uuid <$> l →
  untouched a (alertClient d) (alertClient (foldl (alertStep cfg net clk) d l)).
Proof.
  induction l as [|e l IH]; intros d Hcase; simpl; [apply untouched_refl|].
  assert (a ∈ alertedAgents (alertStep cfg net clk d e) ∨ a ∉ agent_uuid <$> l)
    as Hnext.
  { destruct Hcase as [Hin|Hout].
    - left. apply alertStep_alerted. by left.
    - right. intros Hl. apply Hout. rewrite fmap_cons. by right. }
  eapply untouched_trans; [|by apply IH].
  unfold alertStep. case_bool_decide as Hin; [apply untouched_refl|].
  apply sendAlert_other. simpl. intros Heq.
  destruct Hcase as [Ha|Hout].
  - apply Hin. by rewrite Heq.
  - apply Hout. rewrite fmap_cons, Heq. by left.
Qed.

(** The first loop of [check] hands the client one alert for an agent
    that is in the list and not in the suppression set. *)
Lemma alertStep_fold_outcome clk e l : ∀ d,
  agent_uuid e = a → e ∈ l →
  Forall (λ e', agent_uuid e' = a → e' = e) l →
  a ∉ alertedAgents d →
  clientOutcome cfg (t_send clk a) (deathAlertOf cfg clk e)
    (alertClient d) (alertClient (foldl (alertStep cfg net clk) d l)).
Proof.
  intros d Hid. revert d.
  induction l as [|e' l IH]; intros d Hin Hall Hfresh; simpl.
  { by apply elem_of_nil in Hin. }
  apply Forall_cons in Hall as [Huniq Hall].
  destruct (decide (agent_uuid e' = a)) as [Heq|Hne].
  - rewrite (Huniq Heq) in *. clear Huniq Heq e'.
    apply (clientOutcome_after cfg (t_send clk a) (deathAlertOf cfg clk e) _
             (alertClient (alertStep cfg net clk d e))).
    + unfold alertStep. rewrite bool_decide_eq_false_2 by by rewrite Hid.
      simpl. unfold alertAgentDeath. rewrite Hid.
      pose proof (sendAlert_outcome cfg net (t_send clk a)
                    (deathAlertOf cfg clk e) (alertClient d)) as Hout.
      unfold deathAlertOf in *. rewrite Hid in *. exact Hout.
    + simpl. rewrite Hid. apply alertStep_fold_untouched. left.
      apply alertStep_alerted. by right.
  - assert (e ∈ l) as Hin'.
    { apply elem_of_cons in Hin as [->|Hin]; [by rewrite Hid in Hne|done]. }
    assert (a ∉ alertedAgents (alertStep cfg net clk d e')) as Hfresh'.
    { rewrite alertStep_alerted. intros [?| ->]; [by apply Hfresh|done]. }
    apply (clientOutcome_before cfg (t_send clk a) (deathAlertOf cfg clk e) _
             (alertClient (alertStep cfg net clk d e')));
      [|by apply IH].
    simpl. rewrite Hid.
    unfold alertStep. case_bool_decide; [apply untouched_refl|].
    by apply sendAlert_other.
Qed.

(** One [check], seen on the client from agent [a]. *)
Lemma check_client_outcome s d e :
  storeWf s.2 → agents s.2 !! a = Some e →
  isHealthy e (t_unhealthy s.1) = false →
  a ∉ alertedAgents d →
  clientOutcome cfg (t_send s.1 a) (deathAlertOf cfg s.1 e)
    (alertClient d) (alertClient (check cfg net s.1 s.2 d)).
Proof.
  intros Hwf He Hu Hfresh. unfold check, alertClient at 2. simpl.
  apply alertStep_fold_outcome; [by apply (Hwf a e)| |  |done].
  - apply elem_of_getUnhealthyAgents. split; [by exists a|done].
  - apply Forall_forall.
    intros e' [[k Hk] _]%elem_of_getUnhealthyAgents Hid.
    rewrite (Hwf k e' Hk) in Hid. subst k. congruence.
Qed.

Lemma check_client_untouched s d :
  a ∈ alertedAgents d
  ∨ a ∉ agent_uuid <$> getUnhealthyAgents (t_unhealthy s.1) s.2 →
  untouched a (alertClient d) (alertClient (check cfg net s.1 s.2 d)).
Proof.
  intros Hcase. unfold check, alertClient at 2. simpl.
  by apply alertStep_fold_untouched.
Qed.

Lemma check_client_healthy s d :
  scanOk s → healthyIn a s →
  untouched a (alertClient d) (alertClient (check cfg net s.1 s.2 d)).
Proof.
  intros [Hclk Hwf] (e & He & Hh). apply check_client_untouched. right.
  intros Hu. apply (unhealthy_mentions a _ _ _ Hwf He) in Hu.
  pose proof (isHealthy_mono e _ _ (Hclk a) Hu). congruence.
Qed.

(** A run of scans that find [a] unhealthy while it is in the
    suppression set leaves the client alone for [a]. *)
Lemma runScans_client_untouched scans : ∀ d,
  Forall (λ s, scanOk s ∧ unhealthyIn a s) scans →
  a ∈ alertedAgents d →
  untouched a (alertClient d) (alertClient (runScans cfg net scans d)).
Proof.
  induction scans as [|s scans IH]; intros d Hall Ha; [apply untouched_refl|].
  apply Forall_cons in Hall as [[Hok Hu] Hall].
  eapply untouched_trans; [apply (check_client_untouched s d); by left|].
  apply IH; [done|]. by apply (check_unhealthy cfg net a s d Hok Hu).
Qed.

End ScanOutcome.

(** C5 as stated fails.  An EMERGENCY agent reports at 0 s, goes silent,
    reports once more at 11 s and goes silent again; scans run at 10.5 s,
    20.5 s and 30.5 s, the station answers every request.  The first scan
    finds the agent unhealthy and its alert is posted.  The second scan
    finds it healthy and takes it out of the suppression set.  The third
    scan finds it unhealthy again and puts it back into the set, but this
    second outage produces no alert: [sendAlert] drops the call as a
    duplicate of the alert recorded 20 s before, and the client is left
    exactly as it was, with one request made, nothing queued and no
    timer. *)
Lemma C5_relapse_counterexample :
  let d1 := check cfgStation netUp (clockAt 10500) storeE1 newDetector in
  let d2 := check cfgStation netUp (clockAt 20500) storeE2 d1 in
  let d3 := check cfgStation netUp (clockAt 30500) storeE2 d2 in
  unhealthyIn "agent-9" (clockAt 10500, storeE1) ∧
  "agent-9" ∈ alertedAgents d1 ∧
  (λ p, (al_type p.1, al_agent_uuid p.1, p.2)) <$> posted (alertClient d1)
    = [(AGENT_DEATH, "agent-9", true)] ∧
  healthyIn "agent-9" (clockAt 20500, storeE2) ∧
  ("agent-9" ∉ alertedAgents d2) ∧
  unhealthyIn "agent-9" (clockAt 30500, storeE2) ∧
  "agent-9" ∈ alertedAgents d3 ∧
  alertClient d3 = alertClient d2 ∧
  posted (alertClient d3) = posted (alertClient d1) ∧
  queue (alertClient d3) = [] ∧
  scheduled (alertClient d3) = [].
Proof.
  cbv zeta. split; [eexists; split; reflexivity|].
  split; [by_evaluation|]. split; [reflexivity|].
  split; [eexists; split; reflexivity|].
  split; [by_evaluation|].
  split; [eexists; split; reflexivity|].
  split; [by_evaluation|].
  repeat split; reflexivity.
Qed.

(** C5, amended.  Scans run one at a time: each [check] returns before
    the next one starts, and no report is served while it waits for the
    station.  Take an agent [a] that is not under an open alert.  Over a
    run of scans that all find [a] unhealthy, [check] calls
    [alertAgentDeath] for [a] exactly once, in the first scan: after the
    first scan, and after any number of further scans of the run, the
    count of calls is one and [a] is in the suppression set.  The client
    handles that call as [sendAlert] handles any alert: if its dedup
    record of [a] is an AGENT_DEATH alert less than 60 s old, the call
    leaves no trace; otherwise the alert becomes the dedup record of [a]
    and, when a station is configured, one request is made for it.  The
    further scans of the run leave the record and the requests of [a] as
    they are.  A later scan in which the verdict of [a] is healthy calls
    nothing for [a] and takes [a] out of the set.  Over the next run of
    scans that find [a] unhealthy, [alertAgentDeath] is called once more,
    and the client handles the call by the same rule.  The rule holds of
    one scan in whatever state the client is when the scan starts. *)
Theorem C5_one_death_alert_per_outage (cfg : Config) (net : Network)
    (a : string) (s1 : ScanClock * HeartbeatStore)
    (rest1 : list (ScanClock * HeartbeatStore))
    (recovery : ScanClock * HeartbeatStore)
    (s2 : ScanClock * HeartbeatStore)
    (rest2 : list (ScanClock * HeartbeatStore))
    (e1 e2 : HeartbeatEntry) (d0 : Detector) :
  a ∉ alertedAgents d0 →
  Forall (λ s, scanOk s ∧ unhealthyIn a s) (s1 :: rest1) →
  agents s1.2 !! a = Some e1 →
  scanOk recovery → healthyIn a recovery →
  Forall (λ s, scanOk s ∧ unhealthyIn a s) (s2 :: rest2) →
  agents s2.2 !! a = Some e2 →
  let outage1 := s1 :: rest1 in
  let outage2 := s2 :: rest2 in
  let n0 := deathAlertsFor a (dispatched d0) in
  let d1 := runScans cfg net outage1 d0 in
  let d2 := check cfg net recovery.1 recovery.2 d1 in
  let d3 := runScans cfg net outage2 d2 in
  (∀ k, (1 ≤ k)%nat →
     deathAlertsFor a (dispatched (runScans cfg net (take k outage1) d0)) = S n0 ∧
     a ∈ alertedAgents (runScans cfg net (take k outage1) d0)) ∧
  deathAlertsFor a (dispatched d1) = S n0 ∧
  a ∈ alertedAgents d1 ∧
  deathAlertsFor a (dispatched d2) = S n0 ∧
  (a ∉ alertedAgents d2) ∧
  deathAlertsFor a (dispatched d3) = S (S n0) ∧
  a ∈ alertedAgents d3 ∧
  clientOutcome cfg (t_send s1.1 a) (deathAlertOf cfg s1.1 e1)
    (alertClient d0) (alertClient d1) ∧
  untouched a (alertClient d1) (alertClient d2) ∧
  clientOutcome cfg (t_send s2.1 a) (deathAlertOf cfg s2.1 e2)
    (alertClient d2) (alertClient d3) ∧
  (∀ s e d, scanOk s → agents s.2 !! a = Some e →
     isHealthy e (t_unhealthy s.1) = false →
     let d' := check cfg net s.1 s.2 d in
     if bool_decide (a ∈ alertedAgents d)
     then untouched a (alertClient d) (alertClient d')
     else clientOutcome cfg (t_send s.1 a) (deathAlertOf cfg s.1 e)
            (alertClient d) (alertClient d')).
Proof.
  intros Hfresh Hall1 He1 Hok Hrec Hall2 He2. cbv zeta.
  assert (∀ s e d, scanOk s → agents s.2 !! a = Some e →
            isHealthy e (t_unhealthy s.1) = false →
            if bool_decide (a ∈ alertedAgents d)
            then untouched a (alertClient d) (alertClient (check cfg net s.1 s.2 d))
            else clientOutcome cfg (t_send s.1 a) (deathAlertOf cfg s.1 e)
                   (alertClient d) (alertClient (check cfg net s.1 s.2 d)))
    as Hscan.
  { intros s e d [_ Hwf] He Hu. case_bool_decide as Hin.
    - apply check_client_untouched. by left.
    - by apply check_client_outcome. }
  assert (∀ s rest e d,
            Forall (λ s, scanOk s ∧ unhealthyIn a s) (s :: rest) →
            agents s.2 !! a = Some e → a ∉ alertedAgents d →
            clientOutcome cfg (t_send s.1 a) (deathAlertOf cfg s.1 e)
              (alertClient d) (alertClient (runScans cfg net (s :: rest) d)))
    as Hrun.
  { intros s rest e d [[Hok' Hu'] Hall]%Forall_cons He Hd.
    pose proof (Hwf' := proj2 Hok').
    assert (agent_uuid e = a) as Hid by by apply (Hwf' a e).
    destruct Hu' as (e' & He' & Hu'). rewrite He in He'. injection He' as <-.
    pose proof (Hscan s e d Hok' He Hu') as Hfirst.
    rewrite (bool_decide_eq_false_2 _ Hd) in Hfirst.
    eapply clientOutcome_after; [exact Hfirst|].
    simpl. rewrite Hid. apply runScans_client_untouched; [done|].
    apply (check_unhealthy cfg net a s d Hok'). by exists e. }
  assert ((s1 :: rest1) ≠ []) as Hne1 by done.
  assert ((s2 :: rest2) ≠ []) as Hne2 by done.
  destruct (runScans_unhealthy cfg net a (s1 :: rest1) d0 Hne1 Hall1)
    as [Ha1 Hc1].
  rewrite (bool_decide_eq_false_2 _ Hfresh) in Hc1.
  destruct (check_healthy cfg net a recovery (runScans cfg net (s1 :: rest1) d0)
              Hok Hrec) as [Ha2 Hc2].
  destruct (runScans_unhealthy cfg net a (s2 :: rest2)
              (check cfg net recovery.1 recovery.2
                 (runScans cfg net (s1 :: rest1) d0))
              Hne2 Hall2) as [Ha3 Hc3].
  rewrite (bool_decide_eq_false_2 _ Ha2) in Hc3.
  split.
  { intros k Hk.
    destruct (runScans_unhealthy cfg net a (take k (s1 :: rest1)) d0)
      as [Ha Hc].
    - destruct k; (done || lia).
    - by apply Forall_take.
    - rewrite (bool_decide_eq_false_2 _ Hfresh) in Hc. split; [lia|done]. }
  do 6 (split; [done || lia|]).
  split; [by apply Hrun|].
  split; [by apply check_client_healthy|].
  split; [by apply Hrun|].
  exact Hscan.
Qed.

Lemma C5_one_death_alert_per_outage_witness :
  let d1 := runScans cfgStation netUp firstOutage newDetector in
  let d2 := check cfgStation netUp (clockAt 81000) store2 d1 in
  let d3 := runScans cfgStation netUp secondOutage d2 in
  deathAlertsFor "agent-1" (dispatched d1) = 1%nat ∧
  "agent-1" ∈ alertedAgents d1 ∧
  deathAlertsFor "agent-1" (dispatched d2) = 1%nat ∧
  ("agent-1" ∉ alertedAgents d2) ∧
  deathAlertsFor "agent-1" (dispatched d3) = 2%nat ∧
  "agent-1" ∈ alertedAgents d3 ∧
  dedupOf "agent-1" (alertClient d1) = Some (AGENT_DEATH, 61000) ∧
  length (requestsFor "agent-1" (alertClient d1)) = 1%nat ∧
  dedupOf "agent-1" (alertClient d3) = Some (AGENT_DEATH, 141000) ∧
  length (requestsFor "agent-1" (alertClient d3)) = 2%nat.
Proof.
  destruct (C5_one_death_alert_per_outage cfgStation netUp "agent-1"
              (clockAt 61000, store1) [(clockAt 71000, store1)]
              (clockAt 81000, store2)
              (clockAt 141000, store2) [(clockAt 151000, store2)]
              entry1 entry2 newDetector)
    as (_ & H1 & H2 & H3 & H4 & H5 & H6 & H7 & H8 & H9 & _).
  - apply not_elem_of_empty.
  - repeat constructor.
    + intros id. simpl. lia.
    + unfold storeWf. by_evaluation.
    + exists entry1. split; reflexivity.
    + intros id. simpl. lia.
    + unfold storeWf. by_evaluation.
    + exists entry1. split; reflexivity.
  - reflexivity.
  - split; [intros id; simpl; lia|unfold storeWf; by_evaluation].
  - exists entry2. split; reflexivity.
  - repeat constructor.
    + intros id. simpl. lia.
    + unfold storeWf. by_evaluation.
    + exists entry2. split; reflexivity.
    + intros id. simpl. lia.
    + unfold storeWf. by_evaluation.
    + exists entry2. split; reflexivity.
  - reflexivity.
  - destruct H7 as [H7 _].
    do 6 (split; [assumption|]).
    split; [exact H7|]. split; [reflexivity|]. split; reflexivity.
Defined.

(** * Further properties of the store *)

Section Stats.

Variable now : Z.

Lemma statsStep_fold l : ∀ acc,
  let s := foldl (statsStep now) acc l in
  total s = total acc ∧
  s_healthy s + s_unhealthy s
    = s_healthy acc + s_unhealthy acc + Z.of_nat (length l) ∧
  byMode s EMERGENCY + byMode s IDLE + byMode s SLEEP
    = byMode acc EMERGENCY + byMode acc IDLE + byMode acc SLEEP
      + Z.of_nat (length l) ∧
  s_unhealthy s
    = s_unhealthy acc
      + Z.of_nat (length (filter (λ e, isHealthy e now = false) l)) ∧
  observed s
    = observed acc
      + Z.of_nat (length (filter (λ e, observation_mode e = true) l)).
Proof.
  induction l as [|e l IH]; intros acc; simpl.
  - repeat split; lia.
  - destruct (IH (statsStep now acc e)) as (Ht & Hh & Hm & Hu & Ho).
    rewrite Ht, Hh, Hm, Hu, Ho. clear IH Ht Hh Hm Hu Ho.
    rewrite !filter_cons. unfold statsStep, bumpMode. simpl.
    destruct (isHealthy e now), (observation_mode e), (mode e);
      repeat case_decide; simpl; try done; repeat split; lia.
Qed.

End Stats.

(** X1.  The statistics of [getStats] add up: [total] is the number of
    records, [healthy + unhealthy = total], the three mode counters sum
    to [total], [unhealthy] is the number of records [getUnhealthyAgents]
    returns at the same clock reading, and [observed] counts the records
    whose flag is set, so it lies between 0 and [total]. *)
Theorem X1_stats_add_up (now : Z) (st : HeartbeatStore) :
  let s := getStats now st in
  total s = Z.of_nat (size (agents st)) ∧
  s_healthy s + s_unhealthy s = total s ∧
  byMode s EMERGENCY + byMode s IDLE + byMode s SLEEP = total s ∧
  s_unhealthy s = Z.of_nat (length (getUnhealthyAgents now st)) ∧
  observed s
    = Z.of_nat (length (filter (λ e, observation_mode e = true) (entries st))) ∧
  0 ≤ observed s ≤ total s.
Proof.
  unfold getStats.
  destruct (statsStep_fold now (entries st)
              {| total := Z.of_nat (size (agents st)); s_healthy := 0;
                 s_unhealthy := 0; byMode := λ _, 0; observed := 0 |})
    as (Ht & Hh & Hm & Hu & Ho).
  simpl in *.
  assert (length (entries st) = size (agents st)) as Hlen.
  { unfold entries. by rewrite length_fmap, length_map_to_list. }
  rewrite Hlen in Hh, Hm.
  pose proof (length_filter (λ e, observation_mode e = true) (entries st)).
  repeat split; try lia. exact Hu.
Qed.

(** X2.  A report can be read back.  After [recordHeartbeat] at [now],
    [getAgent] for that id, read at any time [t] less than two intervals
    of the reported mode after [now], returns the reported mode and
    uptime, [now] as last-seen time and a healthy verdict, and the record
    is not among [getUnhealthyAgents] at [t]; [getAgent] for any other id
    answers as before. *)
Theorem X2_report_then_read (st : HeartbeatStore) (now t : Z)
    (id name : string) (m : HeartbeatMode) (up : Z) :
  t - now < 2 * HEARTBEAT_INTERVALS m →
  let st' := (recordHeartbeat now id name m up st).1.1 in
  (∃ e, agents st' !! id = Some e ∧
        getAgent t id st' = Some (entryToStatus t e) ∧
        mode e = m ∧ uptime_seconds e = up ∧ last_seen e = now ∧
        healthy (entryToStatus t e) = true ∧
        e ∉ getUnhealthyAgents t st') ∧
  ∀ id', id' ≠ id → getAgent t id' st' = getAgent t id' st.
Proof.
  intros Hfresh. cbv zeta. split.
  - assert (∃ e, agents (recordHeartbeat now id name m up st).1.1 !! id = Some e
                 ∧ mode e = m ∧ uptime_seconds e = up ∧ last_seen e = now)
      as (e & He & Hm & Hu & Hl).
    { unfold recordHeartbeat. destruct (agents st !! id) as [e0|]; simpl;
        rewrite lookup_insert_eq; eexists; (split; [reflexivity|done]). }
    assert (isHealthy e t = true) as Hh.
    { apply isHealthy_spec. rewrite Hm, Hl. lia. }
    exists e. unfold getAgent. rewrite He. simpl.
    repeat split; try done.
    intros [_ Hu']%elem_of_getUnhealthyAgents. congruence.
  - intros id' Hne. unfold getAgent, recordHeartbeat.
    destruct (agents st !! id); simpl; by rewrite lookup_insert_ne.
Qed.

Lemma X2_report_then_read_witness :
  (∃ e, agents store1 !! "agent-1" = Some e ∧ healthy (entryToStatus 59999 e) = true) ∧
  getAgent 59999 "agent-2" store1 = None.
Proof.
  destruct (X2_report_then_read emptyStore 0 59999 "agent-1" "worker" IDLE 100)
    as [(e & He & _ & _ & _ & _ & Hh & _) Hother].
  - simpl. lia.
  - split; [by exists e|]. apply (Hother "agent-2"). discriminate.
Defined.

Section Identity.

Variable a : string.

Lemma reportsOf_cons op ops :
  reportsOf a (op :: ops) = reportsOf a [op] ++ reportsOf a ops.
Proof.
  unfold reportsOf. simpl.
  by destruct op as [now id name m up| | |]; simpl; [case_bool_decide|..].
Qed.

(** A call that does not remove [a] leaves the identity of its record
    alone; without a record, only a report of [a] creates one. *)
Lemma storeStep_identity st op :
  ¬ removes a op →
  identityOf a (storeStep st op) =
    match identityOf a st with
    | Some x => Some x
    | None => (λ r, (r.1, r.2, a)) <$> head (reportsOf a [op])
    end.
Proof.
  unfold identityOf, reportsOf.
  destruct op as [now id name m up|id cb|c|id]; simpl; intros Hrm.
  - unfold recordHeartbeat. case_bool_decide as Hid; simpl.
    + subst id. destruct (agents st !! a) as [e|] eqn:He; simpl;
        by rewrite lookup_insert_eq.
    + destruct (agents st !! id) as [e|] eqn:He; simpl;
        rewrite lookup_insert_ne by done; by destruct (agents st !! a).
  - unfold enableObservation.
    destruct (observationCallbacks st !! id) as [r|]; simpl;
      (destruct (agents st !! id) as [e|] eqn:He; simpl;
         [|by destruct (agents st !! a)]);
      (destruct (decide (id = a)) as [->|Hne];
        [by rewrite lookup_insert_eq, He
        |rewrite lookup_insert_ne by done; by destruct (agents st !! a)]).
  - unfold runCleanup. case_bool_decide; simpl;
      [|by destruct (agents st !! a)].
    destruct (agents st !! cl_agent c) as [e|] eqn:He; simpl;
      [|by destruct (agents st !! a)].
    destruct (decide (cl_agent c = a)) as [Heq|Hne].
    + by rewrite <- Heq, lookup_insert_eq, He.
    + rewrite lookup_insert_ne by done. by destruct (agents st !! a).
  - rewrite lookup_delete_ne by done. by destruct (agents st !! a).
Qed.

Lemma runStore_identity ops : ∀ st,
  Forall (λ op, ¬ removes a op) ops →
  identityOf a (runStore ops st) =
    match identityOf a st with
    | Some x => Some x
    | None => (λ r, (r.1, r.2, a)) <$> head (reportsOf a ops)
    end.
Proof.
  induction ops as [|op ops IH]; intros st Hall.
  - simpl. by destruct (identityOf a st).
  - apply Forall_cons in Hall as [Hop Hall].
    unfold runStore in *. simpl foldl.
    rewrite (IH _ Hall), (storeStep_identity _ _ Hop), (reportsOf_cons op ops).
    destruct (identityOf a st); [done|].
    by destruct (reportsOf a [op]).
Qed.

End Identity.

(** X3.  The name and the first-seen time of a record are those of the
    report that created it.  From a store without a record of [a], over
    any trace of store calls that never removes [a], the record of [a]
    keeps the arrival time and the name of the first report of [a] and is
    stored under its own id: a name sent with a later report is ignored. *)
Theorem X3_identity_from_first_report (a : string) (ops : list StoreOp)
    (st0 : HeartbeatStore) (t : Z) (name : string) :
  agents st0 !! a = None →
  Forall (λ op, ¬ removes a op) ops →
  head (reportsOf a ops) = Some (t, name) →
  ∃ e, agents (runStore ops st0) !! a = Some e ∧
       first_seen e = t ∧ agent_name e = name ∧ agent_uuid e = a.
Proof.
  intros Hnone Hall Hfirst.
  pose proof (runStore_identity a ops st0 Hall) as Hid.
  unfold identityOf in Hid. rewrite Hnone, Hfirst in Hid. simpl in Hid.
  destruct (agents (runStore ops st0) !! a) as [e|]; [|discriminate Hid].
  exists e. simpl in Hid. injection Hid as -> -> ->. done.
Qed.

Lemma X3_identity_from_first_report_witness :
  ∃ e, agents (runStore renamed emptyStore) !! "agent-1" = Some e ∧
       first_seen e = 1000 ∧ agent_name e = "worker" ∧ agent_uuid e = "agent-1".
Proof.
  apply (X3_identity_from_first_report "agent-1" renamed emptyStore 1000 "worker").
  - reflexivity.
  - repeat constructor; simpl; tauto.
  - reflexivity.
Defined.

(** ** Further properties of observation and removal *)

Lemma deref_alter_eq f r (h : list (list nat)) :
  (r < length h)%nat → deref r (alter f r h) = f (deref r h).
Proof.
  intros Hr. unfold deref. rewrite list_lookup_alter_eq.
  destruct (h !! r) eqn:Hl; [done|].
  apply lookup_ge_None in Hl. lia.
Qed.

Lemma deref_alter_ne f r r' (h : list (list nat)) :
  r ≠ r' → deref r' (alter f r h) = deref r' h.
Proof. intros Hne. unfold deref. by rewrite list_lookup_alter_ne. Qed.

Lemma deref_fresh (h : list (list nat)) : deref (length h) (h ++ [[]]) = [].
Proof.
  unfold deref. by rewrite lookup_app_r, Nat.sub_diag.
Qed.

(** The two cases of [enableObservation]: the agent has no [Set] yet, or
    it has one. *)
Lemma enableObservation_new a cb st :
  observationCallbacks st !! a = None →
  enableObservation a cb st =
    ({| cl_agent := a; cl_set := length (sets st); cl_callback := cb |},
     {| agents :=
          match agents st !! a with
          | Some entry => <[a := mark_observed true entry]> (agents st)
          | None => agents st
          end;
        observationCallbacks := <[a := length (sets st)]> (observationCallbacks st);
        sets := alter (set_add cb) (length (sets st)) (sets st ++ [[]]) |}).
Proof. intros Hc. unfold enableObservation. by rewrite Hc. Qed.

Lemma enableObservation_old a cb st r :
  observationCallbacks st !! a = Some r →
  enableObservation a cb st =
    ({| cl_agent := a; cl_set := r; cl_callback := cb |},
     {| agents :=
          match agents st !! a with
          | Some entry => <[a := mark_observed true entry]> (agents st)
          | None => agents st
          end;
        observationCallbacks := observationCallbacks st;
        sets := alter (set_add cb) r (sets st) |}).
Proof. intros Hc. unfold enableObservation. by rewrite Hc. Qed.

(** The two cases of the cleanup closure: its [Set] is empty after the
    deletion, or it is not. *)
Lemma runCleanup_empty c st :
  deref (cl_set c) (alter (set_delete (cl_callback c)) (cl_set c) (sets st)) = [] →
  runCleanup c st =
    {| agents :=
         match agents st !! cl_agent c with
         | Some entry => <[cl_agent c := mark_observed false entry]> (agents st)
         | None => agents st
         end;
       observationCallbacks := delete (cl_agent c) (observationCallbacks st);
       sets := alter (set_delete (cl_callback c)) (cl_set c) (sets st) |}.
Proof. intros H. unfold runCleanup. by rewrite H. Qed.

Lemma runCleanup_nonempty c st :
  deref (cl_set c) (alter (set_delete (cl_callback c)) (cl_set c) (sets st)) ≠ [] →
  runCleanup c st =
    {| agents := agents st;
       observationCallbacks := observationCallbacks st;
       sets := alter (set_delete (cl_callback c)) (cl_set c) (sets st) |}.
Proof.
  intros H. unfold runCleanup. rewrite bool_decide_eq_false_2; [done|].
  by intros ?%nil_length_inv.
Qed.

(** X4.  A report notifies exactly the callbacks registered for its
    agent, in registration order, each with the record as it is stored
    after the report; the registrations themselves are left as they were. *)
Theorem X4_report_notifies_subscribers (st : HeartbeatStore) (now : Z)
    (id name : string) (m : HeartbeatMode) (up : Z) :
  let out := recordHeartbeat now id name m up st in
  ∃ e, agents out.1.1 !! id = Some e ∧
       out.2 = (λ cb, (cb, e)) <$> subscribers id st ∧
       ∀ id', subscribers id' out.1.1 = subscribers id' st.
Proof.
  cbv zeta. unfold recordHeartbeat, notifyObservers, subscribers.
  destruct (agents st !! id) as [e0|]; simpl;
    (eexists; split; [apply lookup_insert_eq|]);
    (split; [by destruct (observationCallbacks st !! id)|done]).
Qed.

(** What [removeAgent] does to the records. *)
Lemma removeAgent_facts st id :
  ((removeAgent id st).1 = true ↔ is_Some (agents st !! id)) ∧
  agents (removeAgent id st).2 !! id = None ∧
  (∀ id', id' ≠ id →
     agents (removeAgent id st).2 !! id' = agents st !! id') ∧
  removeAgent id (removeAgent id st).2 = (false, (removeAgent id st).2).
Proof.
  unfold removeAgent. simpl.
  split; [apply bool_decide_eq_true|].
  split; [apply lookup_delete_eq|].
  split; [intros id' Hne; by rewrite lookup_delete_ne|].
  f_equal.
  - apply bool_decide_eq_false. rewrite lookup_delete_eq. by intros [? ?].
  - f_equal; apply delete_id; apply lookup_delete_eq.
Qed.

(** X5.  [removeAgent] answers whether the id had a record.  Afterwards
    the id has neither a record nor a registered callback, every other id
    keeps both, a second removal answers [false] and changes nothing,
    and the next report of the id creates a new record, counted from 1,
    and notifies nobody. *)
Theorem X5_removeAgent (st : HeartbeatStore) (id : string) :
  let r := removeAgent id st in
  (r.1 = true ↔ is_Some (agents st !! id)) ∧
  agents r.2 !! id = None ∧
  subscribers id r.2 = [] ∧
  (∀ id', id' ≠ id →
     agents r.2 !! id' = agents st !! id' ∧
     subscribers id' r.2 = subscribers id' st) ∧
  removeAgent id r.2 = (false, r.2) ∧
  ∀ now name m up,
    let out := recordHeartbeat now id name m up r.2 in
    isNew out.1.2 = true ∧ out.2 = [] ∧
    consecutive_heartbeats <$> agents out.1.1 !! id = Some 1.
Proof.
  cbv zeta. unfold removeAgent, subscribers. simpl.
  split; [apply bool_decide_eq_true|].
  split; [apply lookup_delete_eq|].
  split; [by rewrite lookup_delete_eq|].
  split; [intros id' Hne; by rewrite !lookup_delete_ne|].
  split.
  - f_equal.
    + apply bool_decide_eq_false. rewrite lookup_delete_eq. by intros [? ?].
    + f_equal; apply delete_id; apply lookup_delete_eq.
  - intros now name m up. unfold recordHeartbeat, notifyObservers. simpl.
    rewrite !lookup_delete_eq. simpl. by rewrite lookup_insert_eq.
Qed.

(** X6.  Several callbacks can watch one agent, and the flag follows the
    last of them.  For an agent with a record and no registration yet:
    after two subscriptions both callbacks are registered, in order;
    running the cleanup of the first leaves the second registered and the
    flag set; running the cleanup of the second then leaves no
    registration and clears the flag, and the record is still there. *)
Theorem X6_two_subscribers (st : HeartbeatStore) (a : string)
    (cb1 cb2 : nat) (e : HeartbeatEntry) :
  agents st !! a = Some e →
  observationCallbacks st !! a = None →
  cb1 ≠ cb2 →
  let sub1 := enableObservation a cb1 st in
  let sub2 := enableObservation a cb2 sub1.2 in
  let st3 := runCleanup sub1.1 sub2.2 in
  let st4 := runCleanup sub2.1 st3 in
  subscribers a sub2.2 = [cb1; cb2] ∧ observedFlag a sub2.2 = Some true ∧
  subscribers a st3 = [cb2] ∧ observedFlag a st3 = Some true ∧
  subscribers a st4 = [] ∧
  agents st4 !! a = Some (mark_observed false e).
Proof.
  intros He Hc Hne. cbv zeta.
  rewrite (enableObservation_new a cb1 st Hc), He. simpl.
  set (h := sets st).
  set (h1 := alter (set_add cb1) (length h) (h ++ [[]])).
  assert (deref (length h) h1 = [cb1]) as H1.
  { unfold h1. rewrite deref_alter_eq, deref_fresh; [done|].
    rewrite length_app. simpl. lia. }
  assert (length h < length h1)%nat as Hlt.
  { unfold h1. rewrite length_alter, length_app. simpl. lia. }
  rewrite (enableObservation_old a cb2 _ (length h)) by apply lookup_insert_eq.
  simpl. rewrite lookup_insert_eq, insert_insert_eq.
  set (h2 := alter (set_add cb2) (length h) h1).
  assert (deref (length h) h2 = [cb1; cb2]) as H2.
  { unfold h2. rewrite deref_alter_eq, H1 by done. unfold set_add.
    rewrite bool_decide_eq_false_2; [done|].
    intros Hin%list_elem_of_singleton. congruence. }
  unfold subscribers at 1, observedFlag at 1. simpl.
  rewrite !lookup_insert_eq. simpl.
  split; [exact H2|]. split; [done|].
  set (h3 := alter (set_delete cb1) (length h) h2).
  assert (deref (length h) h3 = [cb2]) as H3.
  { unfold h3. rewrite deref_alter_eq, H2 by (unfold h2; by rewrite length_alter).
    unfold set_delete. rewrite filter_cons, filter_cons, filter_nil.
    rewrite decide_False by (by intros ?).
    by rewrite decide_True by done. }
  rewrite (runCleanup_nonempty _ _) by (simpl; fold h3; by rewrite H3).
  simpl. fold h3.
  unfold subscribers at 1, observedFlag at 1. simpl.
  rewrite !lookup_insert_eq. simpl.
  split; [exact H3|]. split; [done|].
  assert (deref (length h) (alter (set_delete cb2) (length h) h3) = []) as H4.
  { rewrite deref_alter_eq, H3
      by (unfold h3, h2; by rewrite !length_alter).
    unfold set_delete. rewrite filter_cons, filter_nil.
    by rewrite decide_False by (by intros ?). }
  rewrite (runCleanup_empty _ _) by (simpl; exact H4).
  unfold subscribers. simpl.
  rewrite lookup_insert_eq, lookup_delete_eq, insert_insert_eq, lookup_insert_eq.
  done.
Qed.

Lemma X6_two_subscribers_witness :
  let sub1 := enableObservation "agent-1" 7%nat store1 in
  let sub2 := enableObservation "agent-1" 8%nat sub1.2 in
  subscribers "agent-1" (runCleanup sub1.1 sub2.2) = [8%nat] ∧
  observedFlag "agent-1" (runCleanup sub1.1 sub2.2) = Some true.
Proof.
  destruct (X6_two_subscribers store1 "agent-1" 7%nat 8%nat entry1)
    as (_ & _ & H3 & H4 & _).
  - reflexivity.
  - reflexivity.
  - discriminate.
  - split; [exact H3|exact H4].
Defined.

(** X7.  A removal orphans the cleanup closures handed out before it.
    A first client subscribes to [a]; [a] is removed; a second client
    subscribes to [a].  When the first client's cleanup runs, its own
    [Set] becomes empty, so it deletes the registration of [a], which by
    now is the second client's: the second callback is still in its
    [Set], but no report of [a] reaches it any more. *)
Theorem X7_stale_cleanup_unregisters (st : HeartbeatStore) (a : string)
    (cb1 cb2 : nat) :
  observationCallbacks st !! a = None →
  let sub1 := enableObservation a cb1 st in
  let st2 := (removeAgent a sub1.2).2 in
  let sub2 := enableObservation a cb2 st2 in
  let st4 := runCleanup sub1.1 sub2.2 in
  subscribers a sub2.2 = [cb2] ∧
  subscribers a st4 = [] ∧
  deref (cl_set sub2.1) (sets st4) = [cb2] ∧
  ∀ now name m up, (recordHeartbeat now a name m up st4).2 = [].
Proof.
  intros Hc. cbv zeta.
  rewrite (enableObservation_new a cb1 st Hc). simpl.
  set (h := sets st).
  set (h1 := alter (set_add cb1) (length h) (h ++ [[]])).
  assert (length h1 = S (length h)) as Hlen1.
  { unfold h1. rewrite length_alter, length_app. simpl. lia. }
  assert (deref (length h) h1 = [cb1]) as H1.
  { unfold h1. rewrite deref_alter_eq, deref_fresh; [done|].
    rewrite length_app. simpl. lia. }
  rewrite (enableObservation_new a cb2) by (simpl; apply lookup_delete_eq).
  simpl. fold h1.
  set (h2 := alter (set_add cb2) (length h1) (h1 ++ [[]])).
  assert (deref (length h1) h2 = [cb2]) as H2.
  { unfold h2. rewrite deref_alter_eq, deref_fresh; [done|].
    rewrite length_app. simpl. lia. }
  assert (deref (length h) h2 = [cb1]) as H2'.
  { unfold h2. rewrite deref_alter_ne by lia.
    unfold deref. rewrite lookup_app_l by lia. exact H1. }
  assert (deref (length h) (alter (set_delete cb1) (length h) h2) = []) as H3.
  { rewrite deref_alter_eq, H2'.
    - unfold set_delete. rewrite filter_cons, filter_nil.
      by rewrite decide_False by (by intros ?).
    - unfold h2. rewrite length_alter, length_app. lia. }
  rewrite (runCleanup_empty _ _) by (simpl; exact H3).
  unfold subscribers, notifyObservers, recordHeartbeat. simpl.
  rewrite lookup_insert_eq, !lookup_delete_eq. simpl.
  split; [exact H2|]. split; [done|]. split.
  - rewrite deref_alter_ne by lia. exact H2.
  - intros now name m up. unfold notifyObservers. simpl.
    by rewrite lookup_delete_eq.
Qed.

Lemma X7_stale_cleanup_unregisters_witness :
  let sub1 := enableObservation "agent-1" 7%nat store1 in
  let st2 := (removeAgent "agent-1" sub1.2).2 in
  let sub2 := enableObservation "agent-1" 8%nat st2 in
  subscribers "agent-1" sub2.2 = [8%nat] ∧
  subscribers "agent-1" (runCleanup sub1.1 sub2.2) = [].
Proof.
  destruct (X7_stale_cleanup_unregisters store1 "agent-1" 7%nat 8%nat)
    as (H1 & H2 & _).
  - reflexivity.
  - split; [exact H1|exact H2].
Defined.

(** X8.  The agents route.  [GET /agents/:id] answers 404 exactly when
    the id has no record, and [DELETE /agents/:id] answers 200 exactly
    when it has one.  After a DELETE of an id, a GET and a second DELETE
    of that id both answer 404, the second DELETE changes nothing, and a
    GET of any other id answers as before. *)
Theorem X8_agents_routes (st : HeartbeatStore) (id : string) (t : Z) :
  ((getAgentRoute t id st).1 = 404 ↔ agents st !! id = None) ∧
  ((deleteAgentRoute id st).1 = 200 ↔ is_Some (agents st !! id)) ∧
  let st' := (deleteAgentRoute id st).2 in
  getAgentRoute t id st' = (404, None) ∧
  deleteAgentRoute id st' = (404, st') ∧
  ∀ id', id' ≠ id → getAgentRoute t id' st' = getAgentRoute t id' st.
Proof.
  assert ((deleteAgentRoute id st).2 = (removeAgent id st).2) as Hst.
  { unfold deleteAgentRoute, removeAgent. by destruct (bool_decide _). }
  destruct (removeAgent_facts st id) as (Hex & Hgone & Hother & Hagain).
  split; [|split].
  - unfold getAgentRoute, getAgent. destruct (agents st !! id); simpl; [|done].
    split; discriminate.
  - rewrite <- Hex. unfold deleteAgentRoute, removeAgent.
    destruct (bool_decide _); simpl; split; (done || discriminate).
  - cbv zeta. rewrite Hst. split; [|split].
    + unfold getAgentRoute, getAgent. by rewrite Hgone.
    + unfold deleteAgentRoute. by rewrite Hagain.
    + intros id' Hne. unfold getAgentRoute, getAgent. by rewrite (Hother id' Hne).
Qed.

(** * Further properties of the alert client *)

Section ClientFacts.

Variables (cfg : Config) (net : Network).

Lemma sendAlert_lastAlert clk a c :
  isDuplicate (t_dedup clk) a c = false →
  lastAlertByAgent (sendAlert cfg net clk a c)
    = <[al_agent_uuid a := (al_type a, t_record clk)]> (lastAlertByAgent c).
Proof.
  intros H. unfold sendAlert. rewrite H.
  destruct (noStation cfg); simpl; [done|].
  destruct (net _); simpl; [done|]. by rewrite queueAlert_last.
Qed.

Lemma sendAlert_isProcessing clk a c :
  isProcessing (sendAlert cfg net clk a c) = isProcessing c.
Proof.
  unfold sendAlert. destruct (isDuplicate _ _ _); [done|].
  destruct (noStation cfg); simpl; [done|].
  destruct (net _); simpl; [done|].
  unfold queueAlert, scheduleQueueProcessing. simpl.
  destruct (isProcessing c); simpl; [done|]. by destruct (bool_decide _).
Qed.

Lemma processQueue_isProcessing now c :
  isProcessing (processQueue cfg net now c) = isProcessing c.
Proof.
  unfold processQueue. destruct (isProcessing c) eqn:Hp; simpl; [done|].
  destruct (bool_decide _); simpl; [done|].
  by destruct (drain _ _ _ _ _).
Qed.

(** Between two calls the flag of the drain pass is never left set. *)
Lemma runClient_isProcessing ops : ∀ c,
  isProcessing (runClient cfg net ops c) = isProcessing c.
Proof.
  induction ops as [|op ops IH]; intros c; [done|].
  unfold runClient in *. simpl. rewrite IH.
  destruct op; simpl; [apply sendAlert_isProcessing|apply processQueue_isProcessing].
Qed.

End ClientFacts.

(** X9.  The dedup window.  After an alert that was not a duplicate, a
    later alert for the same agent is a duplicate exactly when it has the
    same kind and the clock is less than 60000 ms past the time recorded
    for the first: at 60000 ms sharp it is sent again.  Alerts for other
    agents are judged as before. *)
Theorem X9_dedup_window (cfg : Config) (net : Network) (clk : SendClock)
    (a1 : ClusterAlert) (c : AlertClient) :
  isDuplicate (t_dedup clk) a1 c = false →
  let c' := sendAlert cfg net clk a1 c in
  (∀ now a2, al_agent_uuid a2 = al_agent_uuid a1 →
     isDuplicate now a2 c'
       = (now - t_record clk <? 60000) && bool_decide (al_type a1 = al_type a2)) ∧
  (∀ a2, al_agent_uuid a2 = al_agent_uuid a1 → al_type a2 = al_type a1 →
     isDuplicate (t_record clk + 59999) a2 c' = true ∧
     isDuplicate (t_record clk + 60000) a2 c' = false) ∧
  (∀ now a2, al_agent_uuid a2 ≠ al_agent_uuid a1 →
     isDuplicate now a2 c' = isDuplicate now a2 c).
Proof.
  intros Hnew. cbv zeta.
  assert (∀ now a2, al_agent_uuid a2 = al_agent_uuid a1 →
            isDuplicate now a2 (sendAlert cfg net clk a1 c)
            = (now - t_record clk <? 60000) && bool_decide (al_type a1 = al_type a2))
    as Hsame.
  { intros now a2 Hid. unfold isDuplicate.
    by rewrite (sendAlert_lastAlert _ _ _ _ _ Hnew), Hid, lookup_insert_eq. }
  split; [exact Hsame|]. split.
  - intros a2 Hid Hty. rewrite !Hsame by done.
    rewrite bool_decide_eq_true_2 by done. rewrite !andb_true_r. split.
    + apply Z.ltb_lt. lia.
    + apply Z.ltb_ge. lia.
  - intros now a2 Hne. unfold isDuplicate.
    by rewrite (sendAlert_lastAlert _ _ _ _ _ Hnew), lookup_insert_ne.
Qed.

Lemma X9_dedup_window_witness :
  let c' := sendAlert cfgStation netUp (at_ 0) (emergencyAlert 0) newAlertClient in
  isDuplicate 59999 (emergencyAlert 59999) c' = true ∧
  isDuplicate 60000 (emergencyAlert 60000) c' = false.
Proof.
  destruct (X9_dedup_window cfgStation netUp (at_ 0) (emergencyAlert 0)
              newAlertClient) as (_ & H & _).
  - reflexivity.
  - destruct (H (emergencyAlert 59999)) as [H1 _]; [reflexivity..|].
    destruct (H (emergencyAlert 60000)) as [_ H2]; [reflexivity..|].
    split; [exact H1|exact H2].
Defined.

(** X10.  One alert, one request.  Take a [sendAlert] call during which
    no other call of the client runs, in any state of the client, for an
    alert that is not a duplicate, with a station configured.  It makes
    exactly one request.  If the request succeeds, the queue and the
    timers stay as they were.  If it fails, the alert is queued at the
    tail with [attempts = 1] and the time of the call, after the head was
    dropped if the queue was full.  One more timer is then registered,
    with the backoff delay of the head entry and whether or not timers
    are already pending, unless a drain pass is in progress: while
    [isProcessing] is set the alert is queued and no timer is
    registered. *)
Theorem X10_send_outcome (cfg : Config) (net : Network) (clk : SendClock)
    (a : ClusterAlert) (c : AlertClient) :
  noStation cfg = false →
  isDuplicate (t_dedup clk) a c = false →
  let c' := sendAlert cfg net clk a c in
  let ok := net (length (posted c)) in
  posted c' = posted c ++ [(a, ok)] ∧
  isProcessing c' = isProcessing c ∧
  (ok = true → queue c' = queue c ∧ scheduled c' = scheduled c) ∧
  (ok = false →
     queue c' =
       (if Z.of_nat (length (queue c)) >=? alertQueueMaxSize cfg
        then tail (queue c) else queue c)
       ++ [{| alert := a; queuedAt := t_queue clk; attempts := 1 |}] ∧
     scheduled c' =
       if isProcessing c then scheduled c
       else scheduled c ++ [backoffDelay (queue c')]).
Proof.
  intros Hst Hdup c' ok.
  split; [|split; [apply sendAlert_isProcessing|]];
    unfold c', ok, sendAlert; rewrite Hdup, Hst; simpl;
    destruct (net (length (posted c))) eqn:Hnet; simpl.
  - done.
  - by rewrite queueAlert_posted.
  - split; [done|discriminate].
  - split; [discriminate|]. intros _.
    unfold queueAlert, scheduleQueueProcessing. simpl.
    destruct (isProcessing c); simpl; [done|].
    rewrite bool_decide_eq_false_2; [done|].
    rewrite length_app. simpl. lia.
Qed.

Lemma X10_send_outcome_witness :
  let c := runClient cfgStation netDown trace10 newAlertClient in
  let c' := sendAlert cfgStation netDown (at_ 40000) (emergencyAlert 40000) c in
  let busy := set_isProcessing queuedOnce true in
  let busy' :=
    sendAlert cfgStation netDown (at_ 40000) (restartAlert 40000) busy in
  attempts <$> queue c' = [3; 2; 1] ∧
  scheduled c' = [10000; 20000; 40000] ∧
  alert <$> queue busy' = [emergencyAlert 0; restartAlert 40000] ∧
  scheduled busy' = scheduled busy.
Proof.
  destruct (X10_send_outcome cfgStation netDown (at_ 40000)
              (emergencyAlert 40000)
              (runClient cfgStation netDown trace10 newAlertClient))
    as (_ & _ & _ & H); [reflexivity..|].
  destruct (X10_send_outcome cfgStation netDown (at_ 40000)
              (restartAlert 40000) (set_isProcessing queuedOnce true))
    as (_ & _ & _ & H'); [reflexivity..|].
  destruct H as [Hq Hs]; [reflexivity|].
  destruct H' as [Hq' Hs']; [reflexivity|].
  cbv zeta. rewrite Hs, Hq, Hs', Hq'. repeat split.
Defined.

Section DrainSpec.

Variables (cfg : Config) (net : Network).

(** The loop of [processQueue] written without recursion on the client:
    the i-th live entry gets the i-th next answer of the network. *)
Lemma drain_spec now items : ∀ c,
  posted (drain cfg net now items c).2
    = posted c
      ++ imap (λ i q, (alert q, net (length (posted c) + i)%nat))
           (liveEntries cfg now items) ∧
  (drain cfg net now items c).1
    = omap id
        (imap (λ i q, if net (length (posted c) + i)%nat then None
                      else Some (retried q))
           (liveEntries cfg now items)).
Proof.
  unfold liveEntries.
  induction items as [|item rest IH]; intros c; simpl.
  - by rewrite app_nil_r.
  - rewrite filter_cons.
    destruct (now - queuedAt item >? alertQueueTtlMs cfg) eqn:Hexp.
    { rewrite decide_False by done. apply IH. }
    rewrite decide_True by done. rewrite !imap_cons. simpl.
    rewrite Nat.add_0_r.
    match goal with
    | |- context [drain _ _ _ _ ?c'] => specialize (IH c')
    end.
    simpl in IH. rewrite length_app in IH. simpl in IH.
    destruct IH as [IHp IHq].
    assert (∀ {B} (f : bool → QueuedAlert → B),
              imap (λ i q, f (net (length (posted c) + 1 + i)%nat) q)
                (filter (λ item0, (now - queuedAt item0 >? alertQueueTtlMs cfg) = false) rest)
              = imap ((λ i q, f (net (length (posted c) + i)%nat) q) ∘ S)
                  (filter (λ item0, (now - queuedAt item0 >? alertQueueTtlMs cfg) = false) rest))
      as Hshift.
    { intros B f. apply imap_ext. intros i q _. simpl. do 2 f_equal. lia. }
    rewrite (Hshift _ (λ b q, (alert q, b))) in IHp.
    rewrite (Hshift _ (λ b q, if b then None else Some (retried q))) in IHq.
    destruct (net (length (posted c))); simpl.
    + rewrite IHp, IHq. by rewrite <- app_assoc.
    + destruct (drain _ _ _ _ _) as [remaining c2]. simpl in *.
      rewrite IHp, IHq. by rewrite <- app_assoc.
Qed.

Lemma processQueue_spec now c :
  isProcessing c = false →
  posted (processQueue cfg net now c)
    = posted c
      ++ imap (λ i q, (alert q, net (length (posted c) + i)%nat))
           (liveEntries cfg now (queue c)) ∧
  queue (processQueue cfg net now c)
    = omap id
        (imap (λ i q, if net (length (posted c) + i)%nat then None
                      else Some (retried q))
           (liveEntries cfg now (queue c))).
Proof.
  intros Hp. unfold processQueue. rewrite Hp. simpl.
  case_bool_decide as Hlen.
  - apply nil_length_inv in Hlen. rewrite Hlen. simpl. by rewrite app_nil_r.
  - pose proof (drain_spec now (queue c) (set_isProcessing c true)) as [Hpo Hq].
    simpl in *.
    destruct (drain _ _ _ _ _) as [remaining c2]. simpl in *.
    unfold scheduleQueueProcessing. simpl.
    destruct (bool_decide _); [destruct (_ || _)|]; by simpl.
Qed.

End DrainSpec.

(** X11.  One drain pass, entry by entry, when it runs alone: it is
    started while no pass is running, and no other call of the client
    runs before it returns, so the queue it walks is the queue it found.
    [processQueue] then makes one request for each queued entry whose
    age at [now] does not exceed the TTL, in queue order, and no other
    request; it keeps, in order and with [attempts] raised by one, those
    of these entries whose request failed.  The dedup records and the
    timers are left alone. *)
Theorem X11_drain_pass (cfg : Config) (net : Network) (now : Z)
    (c : AlertClient) :
  isProcessing c = false →
  let c' := processQueue cfg net now c in
  let live := liveEntries cfg now (queue c) in
  posted c'
    = posted c ++ imap (λ i q, (alert q, net (length (posted c) + i)%nat)) live ∧
  queue c'
    = omap id
        (imap (λ i q, if net (length (posted c) + i)%nat then None
                      else Some (retried q)) live) ∧
  lastAlertByAgent c' = lastAlertByAgent c ∧
  scheduled c' = scheduled c ∧
  isProcessing c' = false.
Proof.
  intros Hp. cbv zeta.
  destruct (processQueue_spec cfg net now c Hp) as [Hpo Hq].
  split; [exact Hpo|]. split; [exact Hq|].
  split; [|split].
  - unfold processQueue. rewrite Hp. simpl.
    destruct (bool_decide _); [done|].
    pose proof (drain_frame cfg net now (queue (set_isProcessing c true))
                  (set_isProcessing c true)) as (_ & _ & Hl & _).
    destruct (drain _ _ _ _ _) as [remaining c2]. simpl in *.
    destruct (bool_decide _); simpl; [|done].
    by rewrite scheduleQueueProcessing_last.
  - apply processQueue_scheduled.
  - by rewrite processQueue_isProcessing.
Qed.

Lemma X11_drain_pass_witness :
  let c' := processQueue cfgStation netDown 10000 queuedOnce in
  posted c' = [(emergencyAlert 0, false); (emergencyAlert 0, false)] ∧
  queue c' = [retried {| alert := emergencyAlert 0; queuedAt := 0; attempts := 1 |}].
Proof.
  destruct (X11_drain_pass cfgStation netDown 10000 queuedOnce) as (H1 & H2 & _).
  - reflexivity.
  - cbv zeta. rewrite H1, H2. split; reflexivity.
Defined.

Section DrainCases.

Variables (cfg : Config) (net : Network).

Lemma omap_imap_none {A B} (l : list A) :
  omap id (imap (λ _ _, @None B) l) = [].
Proof.
  pose proof (imap_const (λ _ : A, @None B) l) as H. unfold const in H.
  rewrite H. clear H. induction l as [|x l IH]; [done|]. exact IH.
Qed.

Lemma omap_imap_some {A B} (g : A → B) (l : list A) :
  omap id (imap (λ _ x, Some (g x)) l) = g <$> l.
Proof.
  pose proof (imap_const (λ x : A, Some (g x)) l) as H. unfold const in H.
  rewrite H. clear H. induction l as [|x l IH]; [done|].
  simpl. f_equal. exact IH.
Qed.

End DrainCases.

(** X12.  TTL and flush.  After a drain pass that runs alone, started
    while none is running and with no other call of the client before it
    returns: no entry older than the TTL is left in the queue, and the
    requests made are those for the entries within the TTL, so an expired
    entry is dropped without a request.  If the station answers every
    request, the queue ends empty; if it answers none, the queue ends as
    the entries within the TTL, each with one more attempt.  If every
    entry has expired, the queue ends empty and no request is made. *)
Theorem X12_ttl_and_flush (cfg : Config) (net : Network) (now : Z)
    (c : AlertClient) :
  isProcessing c = false →
  let c' := processQueue cfg net now c in
  let live := liveEntries cfg now (queue c) in
  Forall (λ q', now - queuedAt q' ≤ alertQueueTtlMs cfg) (queue c') ∧
  (drop (length (posted c)) (posted c')).*1 = alert <$> live ∧
  ((∀ i, net i = true) → queue c' = []) ∧
  ((∀ i, net i = false) → queue c' = retried <$> live) ∧
  (Forall (λ q, alertQueueTtlMs cfg < now - queuedAt q) (queue c) →
     queue c' = [] ∧ posted c' = posted c).
Proof.
  intros Hp. cbv zeta.
  destruct (processQueue_spec cfg net now c Hp) as [Hpo Hq].
  rewrite Hpo, Hq. clear Hpo Hq.
  split; [|split; [|split; [|split]]].
  - apply Forall_forall. intros q' (x & Hx & Hid)%list_elem_of_omap.
    apply elem_of_lookup_imap in Hx as (i & y & -> & Hy).
    simpl in Hid. destruct (net _); [discriminate|]. injection Hid as <-.
    apply list_elem_of_lookup_2, list_elem_of_filter in Hy as [Hlive _].
    simpl. rewrite Z.gtb_ltb in Hlive. apply Z.ltb_ge in Hlive. exact Hlive.
  - rewrite drop_app_length, fmap_imap.
    pose proof (imap_const alert (liveEntries cfg now (queue c))) as H.
    unfold const in H. exact H.
  - intros Hup.
    rewrite (imap_ext _ (λ _ _, None)); [apply omap_imap_none|].
    intros i q _. by rewrite Hup.
  - intros Hdown.
    rewrite (imap_ext _ (λ _ q, Some (retried q))); [apply omap_imap_some|].
    intros i q _. by rewrite Hdown.
  - intros Hall.
    assert (liveEntries cfg now (queue c) = []) as ->; [|by rewrite app_nil_r].
    unfold liveEntries. induction (queue c) as [|q l IH]; [done|].
    apply Forall_cons in Hall as [Hq Hl]. rewrite filter_cons.
    rewrite decide_False; [by apply IH|].
    rewrite Z.gtb_ltb. intros Hf%Z.ltb_ge. lia.
Qed.

Lemma X12_ttl_and_flush_witness :
  let stale := processQueue cfgStation netUp 300001 queuedOnce in
  let fresh := processQueue cfgStation netUp 300000 queuedOnce in
  queue stale = [] ∧ posted stale = posted queuedOnce ∧
  queue fresh = [] ∧ length (posted fresh) = 2%nat.
Proof.
  destruct (X12_ttl_and_flush cfgStation netUp 300001 queuedOnce)
    as (_ & _ & _ & _ & Hstale); [reflexivity|].
  destruct (X12_ttl_and_flush cfgStation netUp 300000 queuedOnce)
    as (_ & _ & Hup & _); [reflexivity|].
  destruct Hstale as [H1 H2].
  - constructor; [simpl; lia|constructor].
  - cbv zeta. rewrite H1, H2, Hup by done. repeat split.
Defined.

Section Fifo.

Variables (cfg : Config) (net : Network).

Lemma drain_sorted now items : ∀ c,
  StronglySorted Z.le (queuedAt <$> items) →
  StronglySorted Z.le (queuedAt <$> (drain cfg net now items c).1).
Proof.
  induction items as [|item rest IH]; intros c Hs; simpl; [constructor|].
  rewrite fmap_cons in Hs. apply StronglySorted_cons in Hs as [Hle Hs].
  destruct (_ >? _); [by apply IH|].
  destruct (net _); [by apply IH|].
  match goal with
  | |- context [drain _ _ _ _ ?c'] =>
      pose proof (IH c' Hs) as IHs;
      pose proof (drain_attempts cfg net now rest c') as Hin
  end.
  destruct (drain _ _ _ _ _) as [remaining c2]. simpl in *.
  apply StronglySorted_cons. split; [|done].
  apply Forall_fmap, Forall_forall. intros q' (q & Hq & _ & Hat & _)%Hin.
  simpl. rewrite Hat.
  apply (proj1 (Forall_forall _ _) Hle). apply list_elem_of_fmap. by exists q.
Qed.

Lemma processQueue_fifo now lo c :
  fifoInv lo c → fifoInv lo (processQueue cfg net now c).
Proof.
  intros [Hs Hlo]. split.
  - unfold processQueue. destruct (_ || _); [done|].
    pose proof (drain_sorted now (queue (set_isProcessing c true))
                  (set_isProcessing c true) Hs) as Hd.
    destruct (drain _ _ _ _ _) as [remaining c2]. simpl in *.
    destruct (bool_decide _); simpl; [|done].
    by rewrite scheduleQueueProcessing_queue.
  - apply Forall_forall.
    intros q' [Hin|(q & Hin & _ & Hat & _)]%processQueue_queue.
    + by apply (proj1 (Forall_forall _ _) Hlo).
    + rewrite Hat. by apply (proj1 (Forall_forall _ _) Hlo).
Qed.

Lemma sendAlert_fifo clk a lo c :
  lo ≤ t_queue clk →
  fifoInv lo c → fifoInv (t_queue clk) (sendAlert cfg net clk a c).
Proof.
  intros Hle [Hs Hlo].
  assert (fifoInv (t_queue clk) c) as Hsame.
  { split; [done|]. eapply Forall_impl; [exact Hlo|]. simpl. lia. }
  unfold sendAlert. destruct (isDuplicate _ _ _); [done|].
  destruct (noStation cfg); [done|]. simpl.
  destruct (net _); [done|].
  unfold fifoInv. rewrite queueAlert_queue. simpl.
  set (q := if _ >=? _ then _ else _).
  assert (StronglySorted Z.le (queuedAt <$> q) ∧ Forall (λ x, queuedAt x ≤ lo) q)
    as [Hqs Hqlo].
  { unfold q. destruct (_ >=? _); [|done].
    destruct (queue c) as [|x l]; [done|]. simpl in *.
    apply StronglySorted_cons in Hs as [_ Hs].
    by apply Forall_cons in Hlo as [_ Hlo]. }
  split.
  - rewrite fmap_app. apply StronglySorted_app_2.
    + intros x1 x2 (y & -> & Hy)%list_elem_of_fmap Hx2.
      simpl in Hx2. apply list_elem_of_singleton in Hx2 as ->.
      pose proof (proj1 (Forall_forall _ _) Hqlo y Hy). simpl in *. lia.
    + done.
    + simpl. repeat constructor.
  - apply Forall_app. split.
    + eapply Forall_impl; [exact Hqlo|]. simpl. lia.
    + apply Forall_singleton. simpl. lia.
Qed.

Lemma runClient_fifo ops : ∀ lo c,
  fifoInv lo c →
  Forall (Z.le lo) (sendTimes ops) →
  StronglySorted Z.le (sendTimes ops) →
  ∃ lo', fifoInv lo' (runClient cfg net ops c).
Proof.
  induction ops as [|op ops IH]; intros lo c Hinv Hlo Hs; [by exists lo|].
  destruct op as [clk a|now]; simpl in *.
  - apply Forall_cons in Hlo as [Hle Hlo].
    apply StronglySorted_cons in Hs as [Hnext Hs].
    apply (IH (t_queue clk)); [by apply (sendAlert_fifo _ _ lo)|done|done].
  - apply (IH lo); [by apply processQueue_fifo|done|done].
Qed.

End Fifo.

(** X13.  The queue is first-in first-out in time.  When the clock
    readings used for [queuedAt] do not decrease along the calls, the
    queue of every state the client reaches is ordered by [queuedAt].
    [getQueueStats] then reports the length of the queue and, for a
    queue that is not empty, the age of its head, which no entry of the
    queue exceeds; for an empty queue it reports no age. *)
Theorem X13_queue_stats (cfg : Config) (net : Network) (ops : list ClientOp)
    (now : Z) :
  StronglySorted Z.le (sendTimes ops) →
  let c := runClient cfg net ops newAlertClient in
  let s := getQueueStats now c in
  StronglySorted Z.le (queuedAt <$> queue c) ∧
  qs_size s = Z.of_nat (length (queue c)) ∧
  (oldestAge s = None ↔ queue c = []) ∧
  ∀ age, oldestAge s = Some age →
    Forall (λ q, now - queuedAt q ≤ age) (queue c) ∧
    ∃ q, head (queue c) = Some q ∧ age = now - queuedAt q.
Proof.
  intros Hs. cbv zeta.
  destruct (runClient_fifo cfg net ops
              (default 0 (head (sendTimes ops))) newAlertClient)
    as [lo [Hsorted _]].
  - split; constructor.
  - destruct (sendTimes ops) as [|t l]; [constructor|]. simpl.
    apply StronglySorted_cons in Hs as [Hle _]. constructor; [lia|done].
  - done.
  - split; [exact Hsorted|]. unfold getQueueStats.
    destruct (queue (runClient cfg net ops newAlertClient)) as [|q l]; simpl.
    + split; [done|]. split; [done|]. discriminate.
    + split; [done|]. split; [split; discriminate|].
      intros age [= <-]. split; [|by exists q].
      rewrite fmap_cons in Hsorted.
      apply StronglySorted_cons in Hsorted as [Hle _].
      constructor; [lia|].
      rewrite Forall_fmap in Hle. eapply Forall_impl; [exact Hle|].
      simpl. lia.
Qed.

Lemma X13_queue_stats_witness :
  let c := runClient cfgStation netDown trace10 newAlertClient in
  qs_size (getQueueStats 40000 c) = 2 ∧
  oldestAge (getQueueStats 40000 c) = Some 40000 ∧
  Forall (λ q, 40000 - queuedAt q ≤ 40000) (queue c).
Proof.
  destruct (X13_queue_stats cfgStation netDown trace10 40000)
    as (_ & Hsize & _ & Hage).
  - simpl. repeat constructor; lia.
  - destruct (Hage 40000) as [Hall _]; [reflexivity|].
    split; [exact Hsize|]. split; [reflexivity|exact Hall].
Defined.

(** * Further properties of the detector *)

Section ScanFacts.

Variables (cfg : Config) (net : Network) (clk : ScanClock).

Lemma handleUnhealthyAgent_alert e c :
  (handleUnhealthyAgent cfg net clk e c).1 = deathAlertOf cfg clk e.
Proof. done. Qed.

(** The alerts the first loop of [check] adds: one per record of the
    list whose id was not in the suppression set; the client has been
    through [sendAlert] with each of them, in that order. *)
Lemma alertStep_fold_news l : ∀ d,
  ∃ news,
    dispatched (foldl (alertStep cfg net clk) d l) = dispatched d ++ news ∧
    alertClient (foldl (alertStep cfg net clk) d l)
      = sendNews cfg net clk news (alertClient d) ∧
    Forall (λ x, ∃ e, e ∈ l ∧ (agent_uuid e ∉ alertedAgents d) ∧
                      x = deathAlertOf cfg clk e)
      news.
Proof.
  induction l as [|e l IH]; intros d; simpl.
  - exists []. by rewrite app_nil_r.
  - destruct (IH (alertStep cfg net clk d e)) as (news & Hd & Hc & Hall).
    unfold alertStep in *. case_bool_decide as Hin.
    + exists news. split; [done|]. split; [done|].
      eapply Forall_impl; [exact Hall|]. simpl.
      intros x (e' & He' & Hn & ->). exists e'. split; [by right|done].
    + simpl in *. unfold dispatched, alertedAgents, alertClient in *.
      simpl in *.
      exists (deathAlertOf cfg clk e :: news).
      split; [by rewrite Hd, <- app_assoc|]. split; [exact Hc|].
      constructor.
      * exists e. split; [by left|done].
      * eapply Forall_impl; [exact Hall|]. simpl.
        intros x (e' & He' & Hn & ->). exists e'. split; [by right|].
        split; [|done]. intros Hc'. apply Hn.
        apply elem_of_union. by right.
Qed.

End ScanFacts.

Lemma interval_pos m : 0 < HEARTBEAT_INTERVALS m.
Proof. by destruct m. Qed.

(** X14.  What a scan sends, when it runs alone: no report is served and
    no other scan starts while it waits for the station.  [check] calls
    [alertAgentDeath] with a list of new alerts, and the client after the
    scan is the client before it taken through [sendAlert] with each of
    them in turn.  Each of these alerts is a critical AGENT_DEATH alert
    of this cluster, for an agent that was not in the suppression set,
    has a record and is unhealthy at the scan's reading; the alert
    carries that record's last-seen time, mode and uptime, and, with a
    clock that does not run backwards, a count of at least 2 missed
    intervals.  One scan sends at most one alert per agent. *)
Theorem X14_scan_alerts (cfg : Config) (net : Network) (clk : ScanClock)
    (store : HeartbeatStore) (d : Detector) :
  storeWf store →
  (∀ id, t_unhealthy clk ≤ t_handle clk id) →
  ∃ news,
    dispatched (check cfg net clk store d) = dispatched d ++ news ∧
    alertClient (check cfg net clk store d)
      = sendNews cfg net clk news (alertClient d) ∧
    Forall (λ x,
      al_type x = AGENT_DEATH ∧ severity x = critical ∧
      cluster_id x = clusterId cfg ∧
      (al_agent_uuid x ∉ alertedAgents d) ∧
      ∃ e k, agents store !! al_agent_uuid x = Some e ∧
             isHealthy e (t_unhealthy clk) = false ∧
             details x = DeathDetails k (last_seen e) (mode e) (uptime_seconds e) ∧
             2 ≤ k) news ∧
    ∀ a, (deathAlertsFor a news ≤ 1)%nat.
Proof.
  intros Hwf Hclk. unfold check.
  destruct (alertStep_fold_news cfg net clk
              (getUnhealthyAgents (t_unhealthy clk) store) d)
    as (news & Hd & Hc & Hall).
  exists news. unfold dispatched at 1, alertClient at 1. simpl.
  split; [exact Hd|]. split; [exact Hc|]. split.
  - eapply Forall_impl; [exact Hall|]. simpl.
    intros x (e & [[k Hk] Hu]%elem_of_getUnhealthyAgents & Hn & ->).
    unfold deathAlertOf. simpl.
    pose proof (Hwf k e Hk) as Hid. simpl in Hid.
    repeat split; try done.
    exists e. eexists. split; [by rewrite Hid|]. split; [done|].
    split; [reflexivity|].
    apply Z.div_le_lower_bound; [apply interval_pos|].
    assert (¬ t_unhealthy clk - last_seen e < 2 * HEARTBEAT_INTERVALS (mode e))
      as Hlate.
    { rewrite <- isHealthy_spec. by rewrite Hu. }
    pose proof (Hclk (agent_uuid e)). lia.
  - intros a.
    destruct (alertStep_fold cfg net a clk
                (getUnhealthyAgents (t_unhealthy clk) store) d) as [_ Hcnt].
    rewrite Hd in Hcnt. unfold deathAlertsFor in *.
    rewrite filter_app, length_app in Hcnt.
    repeat case_bool_decide; lia.
Qed.

Lemma X14_scan_alerts_witness :
  ∃ news,
    dispatched (check cfgStation netUp (clockAt 61000) store1 newDetector) = news ∧
    alertClient (check cfgStation netUp (clockAt 61000) store1 newDetector)
      = sendNews cfgStation netUp (clockAt 61000) news newAlertClient ∧
    Forall (λ x, al_type x = AGENT_DEATH ∧
                 details x = DeathDetails 2 0 IDLE 100) news ∧
    length news = 1%nat.
Proof.
  destruct (X14_scan_alerts cfgStation netUp (clockAt 61000) store1 newDetector)
    as (news & Hd & Hc & _ & _).
  - unfold storeWf. by_evaluation.
  - intros id. simpl. lia.
  - exists news. split; [exact Hd|]. split; [exact Hc|].
    assert (news = dispatched
                     (check cfgStation netUp (clockAt 61000) store1 newDetector))
      as -> by (by rewrite Hd).
    split; [|reflexivity]. repeat constructor.
Defined.

(** X15.  Who is in the suppression set after a scan.  An id is in the
    set after [check] only if it was in the set before or has a record
    that the scan finds unhealthy.  An id of the set that has no record,
    as after [removeAgent], stays in the set and is sent no alert: the
    scan takes an id out of the set only when it sees a record of it with
    a healthy verdict. *)
Theorem X15_suppression_set (cfg : Config) (net : Network) (clk : ScanClock)
    (store : HeartbeatStore) (d : Detector) :
  storeWf store →
  let d' := check cfg net clk store d in
  (∀ a, a ∈ alertedAgents d' →
     a ∈ alertedAgents d ∨
     ∃ e, agents store !! a = Some e ∧ isHealthy e (t_unhealthy clk) = false) ∧
  (∀ a, a ∈ alertedAgents d → agents store !! a = None →
     a ∈ alertedAgents d' ∧
     deathAlertsFor a (dispatched d') = deathAlertsFor a (dispatched d)) ∧
  (∀ a, a ∈ alertedAgents d → a ∉ alertedAgents d' →
     ∃ e, agents store !! a = Some e ∧ isHealthy e (t_status clk a) = true).
Proof.
  intros Hwf. cbv zeta. unfold check.
  unfold alertedAgents at 1 4 6, dispatched at 1. simpl.
  split; [|split].
  - intros a [Ha _]%recoverStep_fold.
    apply (alertStep_fold cfg net a clk) in Ha as [Ha|Ha]; [by left|right].
    apply list_elem_of_fmap in Ha
      as (e & -> & [[k Hk] Hu]%elem_of_getUnhealthyAgents).
    exists e. by rewrite (Hwf k e Hk).
  - intros a Ha Hnone.
    destruct (alertStep_fold cfg net a clk
                (getUnhealthyAgents (t_unhealthy clk) store) d) as [Hal Hc].
    split.
    + apply recoverStep_fold. split; [apply Hal; by left|].
      intros (s & (e & -> & [k Hk]%elem_of_entries)%list_elem_of_fmap & Hid & _).
      simpl in Hid. rewrite (Hwf k e Hk) in Hid. congruence.
    + rewrite Hc. rewrite bool_decide_eq_true_2 by done. lia.
  - intros a Ha Hgone.
    destruct (alertStep_fold cfg net a clk
                (getUnhealthyAgents (t_unhealthy clk) store) d) as [Hal _].
    destruct (agents store !! a) as [e|] eqn:He.
    + exists e. split; [done|].
      destruct (isHealthy e (t_status clk a)) eqn:Hh; [done|].
      exfalso. apply Hgone, recoverStep_fold. split; [apply Hal; by left|].
      intros Hs. apply (healthy_status a _ _ _ Hwf He) in Hs. congruence.
    + exfalso. apply Hgone, recoverStep_fold. split; [apply Hal; by left|].
      intros (s & (e & -> & [k Hk]%elem_of_entries)%list_elem_of_fmap & Hid & _).
      simpl in Hid. rewrite (Hwf k e Hk) in Hid. congruence.
Qed.

Lemma X15_suppression_set_witness :
  let d := check cfgStation netUp (clockAt 61000) store1 newDetector in
  let d' := check cfgStation netUp (clockAt 62000) emptyStore d in
  "agent-1" ∈ alertedAgents d' ∧
  deathAlertsFor "agent-1" (dispatched d') = deathAlertsFor "agent-1" (dispatched d).
Proof.
  destruct (X15_suppression_set cfgStation netUp (clockAt 62000) emptyStore
              (check cfgStation netUp (clockAt 61000) store1 newDetector))
    as (_ & H & _).
  - unfold storeWf. by_evaluation.
  - apply (H "agent-1"); [by_evaluation|reflexivity].
Defined.

(** * Further properties of the routes *)

(** X16.  Steady traffic raises no alert.  The heartbeat route answers
    with the interval of the reported mode and says whether the agent is
    new.  It leaves the alert client untouched on the first report of an
    agent, whatever its mode, and on every report of a known agent that
    shows no restart and does not enter EMERGENCY from another mode; in
    each case the store counts the report. *)
Theorem X16_steady_report_is_silent (cfg : Config) (net : Network)
    (clk : RouteClock) (id : string) (body : HeartbeatPayload)
    (s : HeartbeatStore * AlertClient) :
  let out := postHeartbeat cfg net clk id body s in
  received out.2 = true ∧
  next_heartbeat_ms out.2 = HEARTBEAT_INTERVALS (p_mode body) ∧
  (is_new out.2 = true ↔ agents s.1 !! id = None) ∧
  counterOf id out.1.1 = counterOf id s.1 + 1 ∧
  (agents s.1 !! id = None → out.1.2 = s.2 ∧ restart_detected out.2 = false) ∧
  (∀ e, agents s.1 !! id = Some e →
     uptime_seconds e ≤ p_uptime_seconds body + 10 →
     p_mode body ≠ EMERGENCY ∨ mode e = EMERGENCY →
     out.1.2 = s.2 ∧ restart_detected out.2 = false).
Proof.
  cbv zeta. unfold postHeartbeat, getAgent, recordHeartbeat, counterOf.
  destruct (agents s.1 !! id) as [e|] eqn:He; simpl;
    rewrite !lookup_insert_eq; simpl.
  - split; [done|]. split; [done|]. split; [split; discriminate|].
    split; [done|]. split; [discriminate|].
    intros e' [= <-] Hup Hmode.
    assert ((uptime_seconds e >? p_uptime_seconds body + 10) = false) as ->.
    { rewrite Z.gtb_ltb. apply Z.ltb_ge. lia. }
    split; [|done].
    unfold handleEmergencyMode. simpl.
    destruct Hmode as [Hm| ->].
    + by rewrite (bool_decide_eq_false_2 _ Hm).
    + rewrite andb_comm, (bool_decide_eq_false_2 (Some EMERGENCY ≠ _)); [done|].
      by intros ?.
  - split; [done|]. split; [done|]. split; [done|]. split; [done|].
    split; [|discriminate]. intros _.
    by rewrite andb_false_r.
Qed.

Lemma X16_steady_report_is_silent_witness :
  let out := postHeartbeat cfgStation netUp (routeAt 30000) "agent-1"
               {| p_mode := IDLE; p_uptime_seconds := 130; p_agent_name := None |}
               (store1, newAlertClient) in
  out.1.2 = newAlertClient ∧ restart_detected out.2 = false.
Proof.
  destruct (X16_steady_report_is_silent cfgStation netUp (routeAt 30000) "agent-1"
              {| p_mode := IDLE; p_uptime_seconds := 130; p_agent_name := None |}
              (store1, newAlertClient)) as (_ & _ & _ & _ & _ & H).
  apply (H entry1); [reflexivity|simpl; lia|left; discriminate].
Defined.

Lemma modeOfString_name m : modeOfString (modeName m) = Some m.
Proof. by destruct m. Qed.

Lemma modeOfString_Some s m : modeOfString s = Some m → s = modeName m.
Proof.
  unfold modeOfString. repeat case_bool_decide; intros [= <-]; by subst.
Qed.

(** X17.  Which heartbeats get in.  The heartbeat route accepts a body
    exactly when its [mode] is one of the strings EMERGENCY, IDLE, SLEEP
    and its [uptime_seconds] is a number, of any sign; it then answers
    200 and does what the handler does for that mode and uptime.  Every
    other body is answered with 400 and leaves the store and the alert
    client as they were. *)
Theorem X17_heartbeat_validation (cfg : Config) (net : Network)
    (clk : RouteClock) (id : string) (body : RawPayload)
    (s : HeartbeatStore * AlertClient) :
  (∀ m up,
     r_mode body = JsString (modeName m) →
     r_uptime_seconds body = JsNumber up →
     let out :=
       postHeartbeat cfg net clk id
         {| p_mode := m; p_uptime_seconds := up;
            p_agent_name := r_agent_name body |} s in
     heartbeatRoute cfg net clk id body s = (out.1, Accepted 200 out.2)) ∧
  ((¬ ∃ m up, r_mode body = JsString (modeName m) ∧
              r_uptime_seconds body = JsNumber up) →
   ∃ err, heartbeatRoute cfg net clk id body s = (s, Rejected 400 err)).
Proof.
  split.
  - intros m up Hm Hu. cbv zeta. unfold heartbeatRoute. rewrite Hm, Hu.
    rewrite modeOfString_name. by destruct m.
  - intros Hbad. unfold heartbeatRoute.
    destruct (negb (truthy (r_mode body)) || negb (isNumber (r_uptime_seconds body)));
      [by eexists|].
    destruct (r_mode body) as [| | | |m|] eqn:Hm; try by eexists.
    destruct (r_uptime_seconds body) as [| | |up| |] eqn:Hu; try by eexists.
    destruct (modeOfString m) as [m0|] eqn:Hm0; [|by eexists].
    exfalso. apply Hbad. exists m0, up.
    by rewrite (modeOfString_Some _ _ Hm0).
Qed.

Lemma X17_heartbeat_validation_witness :
  (∃ r, (heartbeatRoute cfgStation netUp (routeAt 0) "agent-1"
           {| r_mode := JsString "IDLE"; r_uptime_seconds := JsNumber (-5);
              r_agent_name := None |} (emptyStore, newAlertClient)).2
        = Accepted 200 r) ∧
  (∃ err, heartbeatRoute cfgStation netUp (routeAt 0) "agent-1"
            {| r_mode := JsString "idle"; r_uptime_seconds := JsNumber 5;
               r_agent_name := None |} (emptyStore, newAlertClient)
          = (emptyStore, newAlertClient, Rejected 400 err)).
Proof.
  split.
  - destruct (X17_heartbeat_validation cfgStation netUp (routeAt 0) "agent-1"
                {| r_mode := JsString "IDLE"; r_uptime_seconds := JsNumber (-5);
                   r_agent_name := None |} (emptyStore, newAlertClient))
      as [H _].
    rewrite (H IDLE (-5)); [|reflexivity|reflexivity]. by eexists.
  - destruct (X17_heartbeat_validation cfgStation netUp (routeAt 0) "agent-1"
                {| r_mode := JsString "idle"; r_uptime_seconds := JsNumber 5;
                   r_agent_name := None |} (emptyStore, newAlertClient))
      as [_ H].
    apply H. intros (m & up & Hm & _). by destruct m.
Defined.

Lemma substring_all s : String.substring 0 (String.length s) s = s.
Proof. induction s as [|c s IH]; [done|]. simpl. by rewrite IH. Qed.

(** The header is the word Bearer, a space and the key. *)
Lemma bearer_prefix_slice s k :
  String.prefix "Bearer " s = true ∧ slice 7 s = k ↔
  s = String.append "Bearer " k.
Proof.
  split.
  - intros [Hp Hs].
    do 7 (destruct s as [|? s]; [discriminate Hp|];
          cbn [String.prefix] in Hp;
          destruct (Ascii.ascii_dec _ _) as [<-|]; [|discriminate Hp]).
    unfold slice in Hs. simpl in Hs.
    rewrite Nat.sub_0_r, substring_all in Hs. by subst.
  - intros ->. split.
    + simpl. by destruct k.
    + unfold slice. simpl. by rewrite Nat.sub_0_r, substring_all.
Qed.

(** X18.  Who passes the key check.  The middleware lets a request
    through exactly when no collector key is configured, or the
    X-Collector-Key header is the key, or the Authorization header is
    the word Bearer, one space and the key; every other request is
    answered with 401. *)
Theorem X18_requireApiKey (cfg : Config) (h : AuthHeaders) :
  (requireApiKey cfg h = Next ↔
     collectorApiKey cfg = EmptyString ∨
     x_collector_key h = Some (collectorApiKey cfg) ∨
     authorization h = Some (String.append "Bearer " (collectorApiKey cfg))) ∧
  (requireApiKey cfg h ≠ Next → requireApiKey cfg h = Unauthorized 401).
Proof.
  unfold requireApiKey.
  case_bool_decide as Hk; [split; [split; [by left|done]|done]|].
  case_bool_decide as Hx; [split; [split; [by right; left|done]|done]|].
  destruct (authorization h) as [auth|] eqn:Ha.
  - destruct (String.prefix "Bearer " auth
              && bool_decide (slice 7 auth = collectorApiKey cfg)) eqn:Hb.
    + split; [|done]. split; [|done]. intros _. right. right. f_equal.
      apply andb_true_iff in Hb as [Hp Hs%bool_decide_eq_true].
      by apply bearer_prefix_slice.
    + split; [|done]. split; [discriminate|].
      intros [?|[?|[= Heq]]]; [done..|].
      apply bearer_prefix_slice in Heq as [Hp Hs].
      rewrite Hp, (bool_decide_eq_true_2 _ Hs) in Hb. discriminate.
  - split; [|done]. split; [discriminate|]. intros [?|[?|?]]; done.
Qed.

Lemma X18_requireApiKey_witness :
  requireApiKey cfgKey {| x_collector_key := None;
                          authorization := Some "Bearer s3cret" |} = Next ∧
  requireApiKey cfgKey {| x_collector_key := None;
                          authorization := Some "bearer s3cret" |}
    = Unauthorized 401.
Proof.
  split.
  - apply (X18_requireApiKey cfgKey). right. right. reflexivity.
  - apply (X18_requireApiKey cfgKey). discriminate.
Defined.

(** X19.  The alerts of a heartbeat.  For a report of a known agent the
    route hands the client an EMERGENCY_MODE alert, of severity warning
    and carrying the previous mode and the new uptime, exactly when the
    report is in EMERGENCY mode and the record was not; then a
    RESTART_DETECTED alert, of severity info and carrying the stored and
    the new uptime, exactly when the stored uptime exceeds the new one by
    more than 10; and nothing else. *)
Theorem X19_heartbeat_alerts (cfg : Config) (net : Network)
    (clk : RouteClock) (id : string) (body : HeartbeatPayload)
    (s : HeartbeatStore * AlertClient) (e : HeartbeatEntry) :
  agents s.1 !! id = Some e →
  let emergency :=
    {| al_type := EMERGENCY_MODE; al_agent_uuid := id;
       al_agent_name := routeName id body; cluster_id := clusterId cfg;
       severity := warning;
       details := EmergencyDetails (Some (mode e)) (p_uptime_seconds body);
       timestamp := rc_emergency_ts clk |} in
  let restart :=
    {| al_type := RESTART_DETECTED; al_agent_uuid := id;
       al_agent_name := routeName id body; cluster_id := clusterId cfg;
       severity := info;
       details := RestartDetails (uptime_seconds e) (p_uptime_seconds body)
                    (p_mode body);
       timestamp := rc_restart_ts clk |} in
  let c1 :=
    if bool_decide (p_mode body = EMERGENCY ∧ mode e ≠ EMERGENCY)
    then sendAlert cfg net (rc_emergency clk) emergency s.2 else s.2 in
  let c2 :=
    if bool_decide (uptime_seconds e > p_uptime_seconds body + 10)
    then sendAlert cfg net (rc_restart clk) restart c1 else c1 in
  (postHeartbeat cfg net clk id body s).1.2 = c2.
Proof.
  intros He. cbv zeta.
  unfold postHeartbeat, getAgent, recordHeartbeat. rewrite He. simpl.
  rewrite lookup_insert_eq. simpl. fold (routeName id body).
  unfold handleRestartDetected, alertRestartDetected,
    handleEmergencyMode, alertEmergencyMode. simpl.
  assert (bool_decide (uptime_seconds e > p_uptime_seconds body + 10)
          = (uptime_seconds e >? p_uptime_seconds body + 10)) as ->.
  { destruct (Z.gtb_spec (uptime_seconds e) (p_uptime_seconds body + 10)).
    - apply bool_decide_eq_true_2. lia.
    - apply bool_decide_eq_false_2. lia. }
  assert (bool_decide (Some (mode e) ≠ Some EMERGENCY)
          = bool_decide (mode e ≠ EMERGENCY)) as ->.
  { apply bool_decide_ext. split; intros H ?; apply H; congruence. }
  destruct (uptime_seconds e >? p_uptime_seconds body + 10);
    destruct (decide (p_mode body = EMERGENCY)) as [Hm|Hm];
    destruct (decide (mode e = EMERGENCY)) as [Hp|Hp];
    rewrite ?(bool_decide_eq_true_2 _ Hm), ?(bool_decide_eq_false_2 _ Hm),
      ?(bool_decide_eq_true_2 (mode e ≠ EMERGENCY) Hp),
      ?(bool_decide_eq_false_2 (mode e ≠ EMERGENCY)) by (by intros ?);
    simpl;
    first [ rewrite (bool_decide_eq_true_2 (_ ∧ _)) by done
          | rewrite (bool_decide_eq_false_2 (_ ∧ _)) by (intros [? ?]; done) ];
    done.
Qed.

Lemma X19_heartbeat_alerts_witness :
  (λ x, (al_type x.1, severity x.1, details x.1))
    <$> posted (postHeartbeat cfgStation netUp (routeAt 5000) "agent-1"
                  {| p_mode := EMERGENCY; p_uptime_seconds := 3;
                     p_agent_name := None |} (store1, newAlertClient)).1.2
  = [ (EMERGENCY_MODE, warning, EmergencyDetails (Some IDLE) 3);
      (RESTART_DETECTED, info, RestartDetails 100 3 EMERGENCY) ].
Proof.
  rewrite (X19_heartbeat_alerts cfgStation netUp (routeAt 5000) "agent-1"
             {| p_mode := EMERGENCY; p_uptime_seconds := 3;
                p_agent_name := None |} (store1, newAlertClient) entry1);
    reflexivity.
Defined.

Lemma length_filter_status now (P : AgentStatus → Prop)
    (Q : HeartbeatEntry → Prop)
    `{!∀ x, Decision (P x)} `{!∀ x, Decision (Q x)} (l : list HeartbeatEntry) :
  (∀ e, P (entryToStatus now e) ↔ Q e) →
  length (filter P ((λ e, entryToStatus now e) <$> l)) = length (filter Q l).
Proof.
  intros HPQ. induction l as [|e l IH]; [done|].
  rewrite fmap_cons, !filter_cons.
  destruct (decide (P _)) as [HP|HP], (decide (Q e)) as [HQ|HQ]; simpl;
    try (by rewrite IH); exfalso.
  - by apply HQ, HPQ.
  - by apply HP, HPQ.
Qed.

(** X20.  The list and the statistics of [GET /agents] agree.  Read at
    one clock reading, the list has one status per record, as many as
    [stats.total]; the statuses marked unhealthy are as many as
    [stats.unhealthy], and those marked observed as many as
    [stats.observed]. *)
Theorem X20_list_matches_stats (now : Z) (st : HeartbeatStore) :
  let out := listAgentsRoute (λ _, now) now st in
  Z.of_nat (length out.2) = total out.1 ∧
  Z.of_nat (length (filter (λ s, healthy s = false) out.2)) = s_unhealthy out.1 ∧
  Z.of_nat (length (filter (λ s, st_observation_mode s = true) out.2))
    = observed out.1.
Proof.
  cbv zeta. unfold listAgentsRoute, getAllAgents, getStats. simpl.
  destruct (statsStep_fold now (entries st)
              {| total := Z.of_nat (size (agents st)); s_healthy := 0;
                 s_unhealthy := 0; byMode := λ _, 0; observed := 0 |})
    as (Ht & _ & _ & Hu & Ho).
  simpl in *. rewrite Ht, Hu, Ho.
  split; [|split].
  - rewrite length_fmap. unfold entries.
    by rewrite length_fmap, length_map_to_list.
  - by rewrite (length_filter_status now (λ s, healthy s = false)
                  (λ e, isHealthy e now = false)).
  - by rewrite (length_filter_status now (λ s, st_observation_mode s = true)
                  (λ e, observation_mode e = true)).
Qed.

(** * Further properties: edge cases and invariants *)

Section ZeroQueue.

Variable cfg : Config.

Lemma queueAlert_zero now a c :
  alertQueueMaxSize cfg ≤ 0 →
  (length (queue c) ≤ 1)%nat →
  queue (queueAlert cfg now a c)
    = [{| alert := a; queuedAt := now; attempts := 1 |}].
Proof.
  intros Hmax Hlen. rewrite queueAlert_queue.
  destruct (Z.geb_spec (Z.of_nat (length (queue c))) (alertQueueMaxSize cfg));
    [|lia].
  destruct (queue c) as [|q [|q' l]]; simpl in *; (done || lia).
Qed.

Lemma enqueueAll_zero l : ∀ c,
  alertQueueMaxSize cfg ≤ 0 →
  (length (queue c) ≤ 1)%nat →
  (length (queue (enqueueAll cfg l c)) ≤ 1)%nat.
Proof.
  induction l as [|[now a] l IH]; intros c Hmax Hlen; [done|].
  apply IH; [done|]. simpl. by rewrite queueAlert_zero.
Qed.

End ZeroQueue.

(** X21.  A maximum of zero or less does not switch the queue off.
    With [alertQueueMaxSize] at 0 or below, every [queueAlert] first
    drops what is queued and then appends: after any run of calls that
    is not empty the queue holds exactly the newest alert, one entry more
    than the configured maximum. *)
Theorem X21_zero_maximum (cfg : Config) (l : list (Z * ClusterAlert))
    (now : Z) (a : ClusterAlert) :
  alertQueueMaxSize cfg ≤ 0 →
  queue (enqueueAll cfg (l ++ [(now, a)]) newAlertClient)
    = [{| alert := a; queuedAt := now; attempts := 1 |}].
Proof.
  intros Hmax. unfold enqueueAll. rewrite foldl_app. simpl.
  apply queueAlert_zero; [done|].
  apply (enqueueAll_zero cfg l newAlertClient Hmax). simpl. lia.
Qed.

Lemma X21_zero_maximum_witness :
  queue (enqueueAll cfgZero threeAlerts newAlertClient)
    = [{| alert := emergencyAlert 2000; queuedAt := 2000; attempts := 1 |}].
Proof.
  apply (X21_zero_maximum cfgZero
           [(0, emergencyAlert 0); (1000, restartAlert 1000)]
           2000 (emergencyAlert 2000)).
  simpl. lia.
Defined.

(** X22.  A burst is sent once.  After an alert that was not a
    duplicate, any run of alerts of the same kind for the same agent,
    each less than 60000 ms after the time recorded for the first,
    leaves the client exactly as the first alert left it: no request, no
    queue entry, no timer, and the recorded time is not moved, so the
    window is counted from the alert that was sent. *)
Theorem X22_burst_is_sent_once (cfg : Config) (net : Network)
    (clk0 : SendClock) (a0 : ClusterAlert)
    (l : list (SendClock * ClusterAlert)) (c : AlertClient) :
  isDuplicate (t_dedup clk0) a0 c = false →
  Forall (λ x, al_agent_uuid x.2 = al_agent_uuid a0 ∧
               al_type x.2 = al_type a0 ∧
               t_dedup x.1 - t_record clk0 < 60000) l →
  sendAll cfg net l (sendAlert cfg net clk0 a0 c) = sendAlert cfg net clk0 a0 c.
Proof.
  intros Hnew Hall. unfold sendAll.
  induction Hall as [|[clk a] l (Hid & Hty & Hwin) _ IH]; [done|].
  simpl in *. by rewrite (sendAlert_twice cfg net clk0 clk a0 a c).
Qed.

Lemma X22_burst_is_sent_once_witness :
  let c1 := sendAlert cfgStation netUp (at_ 0) (emergencyAlert 0) newAlertClient in
  sendAll cfgStation netUp burst c1 = c1 ∧ length (posted c1) = 1%nat.
Proof.
  split; [|reflexivity].
  apply (X22_burst_is_sent_once cfgStation netUp (at_ 0) (emergencyAlert 0)
           burst newAlertClient).
  - reflexivity.
  - repeat constructor; simpl; lia.
Defined.

Section RecordsOk.

Lemma storeStep_recordsOk st op : recordsOk st → recordsOk (storeStep st op).
Proof.
  unfold recordsOk. intros Hok.
  destruct op as [now id name m up|id cb|c|id]; simpl.
  - unfold recordHeartbeat. destruct (agents st !! id) as [e|] eqn:He; simpl;
      apply map_Forall_insert_2; try done.
    destruct (Hok id e He) as [Hid Hc]. simpl. split; [done|lia].
  - unfold enableObservation.
    destruct (observationCallbacks st !! id); simpl;
      (destruct (agents st !! id) as [e|] eqn:He; simpl; [|done]);
      apply map_Forall_insert_2; try done; by apply (Hok id e).
  - unfold runCleanup. case_bool_decide; simpl; [|done].
    destruct (agents st !! cl_agent c) as [e|] eqn:He; [|done].
    apply map_Forall_insert_2; [|done]. by apply (Hok _ e).
  - by apply map_Forall_delete.
Qed.

Lemma runStore_recordsOk ops : ∀ st, recordsOk st → recordsOk (runStore ops st).
Proof.
  induction ops as [|op ops IH]; intros st Hok; [done|].
  apply IH. by apply storeStep_recordsOk.
Qed.

End RecordsOk.

(** X23.  What every record satisfies.  In every store reached from the
    empty one by reports, subscriptions, cleanups and removals, a record
    found under an id carries that id as its [agent_uuid] and has counted
    at least one report: an id is never stored with a counter of 0. *)
Theorem X23_records_well_formed (ops : list StoreOp) (k : string)
    (e : HeartbeatEntry) :
  agents (runStore ops emptyStore) !! k = Some e →
  agent_uuid e = k ∧ 1 ≤ consecutive_heartbeats e.
Proof.
  intros He.
  assert (recordsOk emptyStore) as H0 by apply map_Forall_empty.
  exact (runStore_recordsOk ops emptyStore H0 k e He).
Qed.

Lemma X23_records_well_formed_witness :
  ∃ e, agents (runStore trace8 emptyStore) !! "agent-1" = Some e ∧
       agent_uuid e = "agent-1" ∧ 1 ≤ consecutive_heartbeats e.
Proof.
  destruct (agents (runStore trace8 emptyStore) !! "agent-1") as [e|] eqn:He;
    [|discriminate He].
  exists e. split; [reflexivity|].
  exact (X23_records_well_formed trace8 "agent-1" e He).
Defined.
